(** * Controle Financeiro: the transaction store of [src/App.tsx]

    A shallow embedding of the three pieces of logic of the [App] component:
    the [useState] initializer that loads and repairs the transactions kept in
    [localStorage], the two mutators [addTransaction] and [deleteTransaction],
    and the [useMemo] aggregation of income, expenses and balance.

    JavaScript numbers are IEEE 754 binary64 values, so amounts are Rocq's
    primitive floats.  The host environment (clock, UUID generator,
    [Date.parse], [Number::toString], [JSON.parse]) is a record the model is
    parametric in; [StringToNumber], which decides what [Number("50")] and
    [Number("abc")] are, is written out. *)

From Stdlib Require Import ZArith List String Ascii Bool Floats Lia Permutation.
Import ListNotations.

Local Open Scope list_scope.
Local Open Scope string_scope.

(** ** Values

    What [JSON.parse] can return, plus [undefined] (the value of a property
    that is absent).  An object is the list of its members in the order they
    were defined; a later member of the same name replaces an earlier one. *)

#[warnings="-register-all"]
Inductive value : Type :=
| VUndefined
| VNull
| VBool (b : bool)
| VNumber (n : float)
| VString (s : string)
| VArray (elems : list value)
| VObject (props : list (string * value)).

Inductive exn : Type :=
| TypeError (msg : string)
| SyntaxError (msg : string).

(** The completion of an expression: a value, or an exception in flight. *)
Inductive completion (A : Type) : Type :=
| Normal (a : A)
| Throw (e : exn).
Arguments Normal {A} a.
Arguments Throw {A} e.

Definition cbind {A B} (c : completion A) (k : A -> completion B) : completion B :=
  match c with
  | Normal a => k a
  | Throw e => Throw e
  end.

(** ** Binary64 helpers *)

Module Float64.

(** The binary64 value nearest to the integer [z] (ties to even). *)
Definition of_Z (z : Z) : float :=
  SF2Prim (binary_normalize prec emax z 0 false).

(** The binary64 value nearest to [(-1)^neg * m / d] for [m, d > 0]. *)
Definition of_ratio (neg : bool) (m d : positive) : float :=
  let '(q, e, l) := SFdiv_core_binary prec emax (Zpos m) 0 (Zpos d) 0 in
  SF2Prim (binary_round_aux prec emax neg q e l).

(** The binary64 value nearest to [(-1)^neg * m * 10^e]; a zero mantissa
    keeps the sign. *)
Definition of_decimal (neg : bool) (m : Z) (e : Z) : float :=
  match m with
  | Zpos p =>
      match e with
      | Zneg k => of_ratio neg p (Pos.pow 10 k)
      | _ => SF2Prim (binary_round prec emax neg (p * Z.to_pos (10 ^ e))%positive 0)
      end
  | _ => if neg then neg_zero else zero
  end.

(** The integer part of a finite value (rounding towards zero). *)
Definition truncate (x : float) : Z :=
  match Prim2SF x with
  | S754_finite s m e =>
      let a := match e with
               | Zneg k => Z.shiftr (Zpos m) (Zpos k)
               | _ => Z.shiftl (Zpos m) e
               end in
      if s then Z.opp a else a
  | _ => 0%Z
  end.

(** The binary64 number that is the positive integer [v] below [2^53], with
    sign [s]: the mantissa is [v] shifted to 53 bits. *)
Definition canon (s : bool) (v : positive) : spec_float :=
  S754_finite s (Z.to_pos (Zpos v * 2 ^ (53 - Zpos (digits2_pos v))))
              (Zpos (digits2_pos v) - 53).

(** The binary64 number that is the integer [z], for [|z| < 2^53]. *)
Definition repr (z : Z) : spec_float :=
  match z with
  | Z0 => S754_zero false
  | Zpos v => canon false v
  | Zneg v => canon true v
  end.

End Float64.

(** ** Strings of digits *)

Definition digit_of (base : Z) (c : ascii) : option Z :=
  let n := Z.of_nat (nat_of_ascii c) in
  let d := if (48 <=? n)%Z && (n <=? 57)%Z then (n - 48)%Z
           else if (97 <=? n)%Z && (n <=? 102)%Z then (n - 87)%Z
           else if (65 <=? n)%Z && (n <=? 70)%Z then (n - 55)%Z
           else 99%Z in
  if (d <? base)%Z then Some d else None.

(** Reads the longest prefix of digits of [base]: its value (continuing from
    [acc]), how many digits were read, and the rest. *)
Fixpoint read_digits (base : Z) (acc : Z) (count : Z) (s : string) : Z * Z * string :=
  match s with
  | String c rest =>
      match digit_of base c with
      | Some d => read_digits base (acc * base + d) (count + 1) rest
      | None => (acc, count, s)
      end
  | EmptyString => (acc, count, s)
  end.

Definition strip_prefix (p s : string) : option string :=
  if prefix p s then Some (substring (length p) (length s - length p) s) else None.

(** ** [StringToNumber] (ECMA-262 7.1.4.1.1)

    Strings are read as UTF-8, so the white space and line terminators that
    [Number] trims are the byte sequences below. *)

Definition js_whitespace : list string :=
  [ String "009" ""; String "010" ""; String "011" ""; String "012" "";
    String "013" ""; String "032" "";
    String "194" (String "160" "");                              (* U+00A0 *)
    String "225" (String "154" (String "128" ""));               (* U+1680 *)
    String "226" (String "128" (String "128" ""));               (* U+2000 *)
    String "226" (String "128" (String "129" ""));
    String "226" (String "128" (String "130" ""));
    String "226" (String "128" (String "131" ""));
    String "226" (String "128" (String "132" ""));
    String "226" (String "128" (String "133" ""));
    String "226" (String "128" (String "134" ""));
    String "226" (String "128" (String "135" ""));
    String "226" (String "128" (String "136" ""));
    String "226" (String "128" (String "137" ""));
    String "226" (String "128" (String "138" ""));               (* U+200A *)
    String "226" (String "128" (String "168" ""));               (* U+2028 *)
    String "226" (String "128" (String "169" ""));               (* U+2029 *)
    String "226" (String "128" (String "175" ""));               (* U+202F *)
    String "226" (String "129" (String "159" ""));               (* U+205F *)
    String "227" (String "128" (String "128" ""));               (* U+3000 *)
    String "239" (String "187" (String "191" "")) ].             (* U+FEFF *)

Definition strip_one_whitespace (s : string) : option string :=
  fold_right (fun w found =>
                match strip_prefix w s with
                | Some rest => Some rest
                | None => found
                end) None js_whitespace.

Fixpoint trim_start (fuel : nat) (s : string) : string :=
  match fuel with
  | O => s
  | S fuel' =>
      match strip_one_whitespace s with
      | Some rest => trim_start fuel' rest
      | None => s
      end
  end.

Fixpoint string_rev_onto (s acc : string) : string :=
  match s with
  | EmptyString => acc
  | String c rest => string_rev_onto rest (String c acc)
  end.

Definition string_rev (s : string) : string := string_rev_onto s "".

Definition strip_one_whitespace_end (r : string) : option string :=
  fold_right (fun w found =>
                match strip_prefix (string_rev w) r with
                | Some rest => Some rest
                | None => found
                end) None js_whitespace.

Fixpoint trim_end_rev (fuel : nat) (r : string) : string :=
  match fuel with
  | O => r
  | S fuel' =>
      match strip_one_whitespace_end r with
      | Some rest => trim_end_rev fuel' rest
      | None => r
      end
  end.

Definition trim (s : string) : string :=
  let s1 := trim_start (length s) s in
  string_rev (trim_end_rev (length s1) (string_rev s1)).

(** [NonDecimalIntegerLiteral]: the digits after [0x], [0o] or [0b]. *)
Definition radix_literal (base : Z) (digits : string) : float :=
  match read_digits base 0 0 digits with
  | (n, count, EmptyString) => if (0 <? count)%Z then Float64.of_Z n else nan
  | _ => nan
  end.

(** [ExponentPart] (optional); the result is [None] when what follows the
    significand is not a well-formed exponent reaching the end of the string. *)
Definition exponent_part (s : string) : option Z :=
  match s with
  | EmptyString => Some 0%Z
  | String c rest =>
      if (c =? "e")%char || (c =? "E")%char then
        let '(neg, rest1) :=
          match rest with
          | String "-" r => (true, r)
          | String "+" r => (false, r)
          | _ => (false, rest)
          end in
        match read_digits 10 0 0 rest1 with
        | (n, count, EmptyString) =>
            if (0 <? count)%Z then Some (if neg then (- n)%Z else n) else None
        | _ => None
        end
      else None
  end.

(** [StrUnsignedDecimalLiteral], with the sign already read. *)
Definition unsigned_decimal_literal (neg : bool) (s : string) : float :=
  if s =? "Infinity" then (if neg then neg_infinity else infinity)
  else
    let '(int_part, int_count, rest) := read_digits 10 0 0 s in
    let '(mantissa, frac_count, rest1) :=
      match rest with
      | String "." r => read_digits 10 int_part 0 r
      | _ => (int_part, 0%Z, rest)
      end in
    if (0 <? int_count + frac_count)%Z then
      match exponent_part rest1 with
      | Some e => Float64.of_decimal neg mantissa (e - frac_count)
      | None => nan
      end
    else nan.

Definition StringToNumber (str : string) : float :=
  let s := trim str in
  match s with
  | EmptyString => zero
  | String "0" (String c digits) =>
      if (c =? "x")%char || (c =? "X")%char then radix_literal 16 digits
      else if (c =? "o")%char || (c =? "O")%char then radix_literal 8 digits
      else if (c =? "b")%char || (c =? "B")%char then radix_literal 2 digits
      else unsigned_decimal_literal false s
  | String "-" rest => unsigned_decimal_literal true rest
  | String "+" rest => unsigned_decimal_literal false rest
  | _ => unsigned_decimal_literal false s
  end.

(** ** Conversions *)

Definition ToBoolean (v : value) : bool :=
  match v with
  | VUndefined | VNull => false
  | VBool b => b
  | VNumber n => negb (is_zero n || is_nan n)
  | VString s => negb (s =? "")
  | VArray _ | VObject _ => true
  end.

(** [v === s] for a string [s] (and [SameValueZero(v, s)], which agrees with
    it on strings). *)
Definition strict_equals_string (v : value) (s : string) : bool :=
  match v with
  | VString s' => s' =? s
  | _ => false
  end.

(** The own property [k] of an object: the last member of that name. *)
Fixpoint own_property (k : string) (props : list (string * value)) : option value :=
  match props with
  | [] => None
  | (k', v) :: rest =>
      match own_property k rest with
      | Some v' => Some v'
      | None => if k' =? k then Some v else None
      end
  end.

(** [v.k] for the property names [App.tsx] reads ([id], [description],
    [amount], [type], [date]): none of them is a property of a primitive
    wrapper, of an array or of [Object.prototype], so the result is the own
    property of an object and [undefined] for every other value, except that
    reading a property of [null] or [undefined] throws. *)
Definition Get (v : value) (k : string) : completion value :=
  match v with
  | VUndefined =>
      Throw (TypeError ("Cannot read properties of undefined (reading '" ++ k ++ "')"))
  | VNull =>
      Throw (TypeError ("Cannot read properties of null (reading '" ++ k ++ "')"))
  | VObject props =>
      match own_property k props with
      | Some x => Normal x
      | None => Normal VUndefined
      end
  | _ => Normal VUndefined
  end.

(** [TimeClip] (ECMA-262 21.4.1.31) *)
Definition TimeClip (time : float) : float :=
  if negb (is_finite time) then nan
  else if (8.64e15 <? abs time)%float then nan
  else Float64.of_Z (Float64.truncate time).

(** ** The host

    What the browser supplies and the repository does not define.  [clock n]
    is the time value of the [n]-th [new Date()] of the session and
    [randomUUID n] the [n]-th result of [crypto.randomUUID()]; [Date_parse]
    ([NaN] for a string it rejects) is implementation-defined outside the ISO
    format. *)
Record Host : Type := {
  clock : nat -> float;
  randomUUID : nat -> string;
  Date_parse : string -> float;
  NumberToString : float -> string;
  JSON_parse : string -> completion value
}.

(** Modelled from the spec: the enum [TransactionType] of [./types], which is
    not among the sources.  The spec gives it two members, INCOME and EXPENSE,
    stored as strings; their values are left open. *)
Record TransactionTypeEnum : Type := {
  INCOME : string;
  EXPENSE : string
}.

(** [Object.values(TransactionType)] of a string enum. *)
Definition Object_values (e : TransactionTypeEnum) : list string :=
  [INCOME e; EXPENSE e].

(** [array.includes(v)] for an array of strings. *)
Definition includes (array : list string) (v : value) : bool :=
  existsb (strict_equals_string v) array.

(** A [Date] object is its time value; [NaN] is the invalid date. *)
Record Date : Type := { getTime : float }.

(** [Transaction] of [./types] as the code uses it.  [amount] and [type] are
    values of any kind: the aggregation tests them at run time. *)
Record Transaction : Type := {
  id : string;
  description : string;
  amount : value;
  type : value;
  date : Date
}.

(** [Omit<Transaction, 'id' | 'date'>], what the form hands to
    [addTransaction]. *)
Record NewTransaction : Type := {
  new_description : string;
  new_amount : value;
  new_type : value
}.

(** ** Effects

    The initializer reads the clock, draws UUIDs, writes to the console and
    may throw.  A computation takes the world to a completion and a world;
    what was logged before an exception stays logged. *)

Inductive Diagnostic : Type :=
| Warn (msg : string)
| Error (msg : string) (error : exn).

Record World : Type := {
  ticks : nat;                 (* how many times the clock was read *)
  draws : nat;                 (* how many UUIDs were drawn *)
  console : list Diagnostic    (* oldest first *)
}.

Definition M (A : Type) : Type := World -> completion A * World.

Definition ret {A} (a : A) : M A := fun w => (Normal a, w).

Definition bind {A B} (m : M A) (k : A -> M B) : M B :=
  fun w =>
    match m w with
    | (Normal a, w') => k a w'
    | (Throw e, w') => (Throw e, w')
    end.

Definition lift {A} (c : completion A) : M A := fun w => (c, w).

Definition try_catch {A} (body : M A) (handler : exn -> M A) : M A :=
  fun w =>
    match body w with
    | (Normal a, w') => (Normal a, w')
    | (Throw e, w') => handler e w'
    end.

Notation "x <- m ;; k" := (bind m (fun x => k))
  (at level 61, m at next level, right associativity).
Notation "m ;;; k" := (bind m (fun _ => k))
  (at level 61, right associativity).

Definition console_warn (msg : string) : M unit :=
  fun w => (Normal tt, {| ticks := ticks w; draws := draws w;
                          console := (console w ++ [Warn msg])%list |}).

Definition console_error (msg : string) (error : exn) : M unit :=
  fun w => (Normal tt, {| ticks := ticks w; draws := draws w;
                          console := (console w ++ [Error msg error])%list |}).

(** [array.map(callback)] on a dense array: the callback runs on the
    elements from first to last, and an exception it throws ends the loop. *)
Fixpoint mapM {A B} (callback : A -> M B) (array : list A) : M (list B) :=
  match array with
  | [] => ret []
  | element :: rest =>
      mapped <- callback element ;;
      others <- mapM callback rest ;;
      ret (mapped :: others)
  end.

Definition dquote : string := String "034" "".

Section App.

Variable host : Host.
Variable TransactionType : TransactionTypeEnum.

(** [new Date()] *)
Definition new_Date_now : M Date :=
  fun w => (Normal {| getTime := clock host (ticks w) |},
            {| ticks := S (ticks w); draws := draws w; console := console w |}).

(** [crypto.randomUUID()] *)
Definition crypto_randomUUID : M string :=
  fun w => (Normal (randomUUID host (draws w)),
            {| ticks := ticks w; draws := S (draws w); console := console w |}).

(** [ToString] (ECMA-262 7.1.17).  An array is the comma-separated
    [ToString] of its elements, [null] and [undefined] printing as the
    empty string ([Array.prototype.join]); an object is ["[object Object]"]
    unless it has an own member [toString], which, never being callable in
    decoded JSON, leaves [OrdinaryToPrimitive] with no primitive to return. *)
Fixpoint ToString (v : value) : completion string :=
  match v with
  | VUndefined => Normal "undefined"
  | VNull => Normal "null"
  | VBool true => Normal "true"
  | VBool false => Normal "false"
  | VNumber n => Normal (NumberToString host n)
  | VString s => Normal s
  | VArray elems =>
      (fix join (l : list value) : completion string :=
         match l with
         | [] => Normal ""
         | x :: rest =>
             cbind (match x with
                    | VUndefined | VNull => Normal ""
                    | _ => ToString x
                    end)
                   (fun s =>
                      match rest with
                      | [] => Normal s
                      | _ => cbind (join rest) (fun r => Normal (s ++ "," ++ r))
                      end)
         end) elems
  | VObject props =>
      match own_property "toString" props with
      | Some _ => Throw (TypeError "Cannot convert object to primitive value")
      | None => Normal "[object Object]"
      end
  end.

(** [ToPrimitive] (ECMA-262 7.1.1): for decoded JSON the two hints agree,
    [valueOf] returning the object itself. *)
Definition ToPrimitive (v : value) : completion value :=
  match v with
  | VArray _ | VObject _ => cbind (ToString v) (fun s => Normal (VString s))
  | _ => Normal v
  end.

(** [ToNumber] (ECMA-262 7.1.4) *)
Definition ToNumber (v : value) : completion float :=
  cbind (ToPrimitive v) (fun prim =>
    match prim with
    | VUndefined => Normal nan
    | VNull => Normal zero
    | VBool true => Normal one
    | VBool false => Normal zero
    | VNumber n => Normal n
    | VString s => Normal (StringToNumber s)
    | VArray _ | VObject _ => Throw (TypeError "Cannot convert object to primitive value")
    end).

(** [new Date(value)] with one argument that is not a [Date]. *)
Definition new_Date (v : value) : completion Date :=
  cbind (ToPrimitive v) (fun prim =>
    cbind (match prim with
           | VString s => Normal (Date_parse host s)
           | _ => ToNumber prim
           end)
          (fun tv => Normal {| getTime := TimeClip tv |})).

(** ** The initializer of [transactions] (lines 10-55) *)

(** The template literals of lines 23 and 27. *)
Definition invalid_date_warning (id_text date_text : string) : string :=
  "Invalid date format for transaction id " ++ dquote ++ id_text ++ dquote
    ++ ", value " ++ dquote ++ date_text ++ dquote
    ++ ". Using current date as fallback.".

Definition missing_date_warning (id_text : string) : string :=
  "Missing or invalid date for transaction (id: " ++ id_text
    ++ "). Using current date as fallback.".

(** Lines 19-29: [parsedDate]. *)
Definition repair_date (t : value) : M Date :=
  has_date <- lift (if ToBoolean t then Get t "date" else Normal t) ;;
  if ToBoolean has_date then
    t_date <- lift (Get t "date") ;;
    parsedDate <- lift (new_Date t_date) ;;
    if is_nan (getTime parsedDate) then
      id_text <- lift (cbind (Get t "id") ToString) ;;
      date_text <- lift (cbind (Get t "date") ToString) ;;
      console_warn (invalid_date_warning id_text date_text) ;;;
      new_Date_now
    else ret parsedDate
  else
    id_text <- lift (cbind (Get t "id") ToString) ;;
    console_warn (missing_date_warning id_text) ;;;
    new_Date_now.

(** Line 32: [String(t.id || crypto.randomUUID())]. *)
Definition repair_id (t : value) : M string :=
  t_id <- lift (Get t "id") ;;
  if ToBoolean t_id then lift (ToString t_id)
  else
    uuid <- crypto_randomUUID ;;
    lift (ToString (VString uuid)).

(** Line 33: [String(t.description || "N/A")]. *)
Definition repair_description (t : value) : M string :=
  t_description <- lift (Get t "description") ;;
  lift (ToString (if ToBoolean t_description then t_description else VString "N/A")).

(** Line 34: [Number(t.amount || 0)]. *)
Definition repair_amount (t : value) : M float :=
  t_amount <- lift (Get t "amount") ;;
  lift (ToNumber (if ToBoolean t_amount then t_amount else VNumber zero)).

(** Line 35: the type is kept when [Object.values(TransactionType)] includes
    it and is [TransactionType.EXPENSE] otherwise. *)
Definition repair_type (t : value) : M value :=
  t_type <- lift (Get t "type") ;;
  if includes (Object_values TransactionType) t_type
  then lift (Get t "type")
  else ret (VString (EXPENSE TransactionType)).

(** Lines 18-43: the callback of [typedTransactions.map]. *)
Definition normalize (t : value) : M Transaction :=
  parsedDate <- repair_date t ;;
  id <- repair_id t ;;
  description <- repair_description t ;;
  amount <- repair_amount t ;;
  type <- repair_type t ;;
  ret {| id := id; description := description; amount := VNumber amount;
         type := type; date := parsedDate |}.

(** Line 44: [t !== null]; the callback returns an object literal. *)
Definition not_null (t : Transaction) : bool := true.

(** Lines 10-55; [savedTransactions] is [localStorage.getItem('transactions')],
    [None] for [null]. *)
Definition initial_transactions (savedTransactions : option string) : M (list Transaction) :=
  match savedTransactions with
  | Some saved =>
      if negb (saved =? "") then
        try_catch
          (rawParsedData <- lift (JSON_parse host saved) ;;
           match rawParsedData with
           | VArray typedTransactions =>
               mapped <- mapM normalize typedTransactions ;;
               ret (filter not_null mapped)
           | _ =>
               console_warn "Transactions from localStorage were not in the expected array format. Initializing with empty list." ;;;
               ret []
           end)
          (fun error =>
             console_error "Failed to parse transactions from localStorage:" error ;;;
             ret [])
      else ret []
  | None => ret []
  end.

(** ** The mutators (lines 61-72), as the functions handed to
    [setTransactions] *)

Definition addTransaction (newTransaction : NewTransaction)
           (prevTransactions : list Transaction) : M (list Transaction) :=
  uuid <- crypto_randomUUID ;;
  now <- new_Date_now ;;
  ret (prevTransactions ++
         [{| id := uuid; description := new_description newTransaction;
             amount := new_amount newTransaction; type := new_type newTransaction;
             date := now |}])%list.

Definition deleteTransaction (id' : string) (prevTransactions : list Transaction)
  : list Transaction :=
  filter (fun transaction => negb (id transaction =? id')) prevTransactions.

(** ** The aggregation (lines 74-92) *)

Record Totals : Type := {
  totalIncome : float;
  totalExpenses : float;
  balance : float
}.

(** The body of the [forEach] callback on the accumulators
    [(income, expenses)].  An element of [transactions] is an object, so the
    test [transaction &&] passes; [typeof transaction.amount === 'number']
    holds exactly when the amount is a [VNumber]. *)
Definition accumulate (acc : float * float) (transaction : Transaction) : float * float :=
  let '(income, expenses) := acc in
  match amount transaction with
  | VNumber a =>
      if strict_equals_string (type transaction) (INCOME TransactionType)
      then ((income + a)%float, expenses)
      else (income, (expenses + a)%float)
  | _ => (income, expenses)
  end.

Definition aggregate (transactions : list Transaction) : Totals :=
  let '(income, expenses) := fold_left accumulate transactions (zero, zero) in
  {| totalIncome := income; totalExpenses := expenses;
     balance := (income - expenses)%float |}.

End App.

(** ** Persistence and the life of the component (lines 10-72)

    [localStorage] holds at most one string per key.  What the browser
    supplies for writing is a second record: [JSON.stringify] on a collection
    of transactions, and [Date.prototype.toISOString], which is how
    [JSON.stringify] writes a date.

    [JSON.stringify] writes the members of an object in the order in which
    they were created: those of the form's object, then [id] and [date], for
    a transaction that was added (line 64), and [id], [description],
    [amount], [type], [date] for one that was loaded (lines 37-43).  A
    [Transaction] does not record that order, so [JSON_stringify] stands for
    the text written for the objects at hand, and nothing below relies on
    two collections with the same members being written as the same text:
    what is read back is stated for every text that decodes to the members,
    in any order. *)

Definition Storage : Type := string -> option string.

(** [localStorage.getItem(key)], [None] for [null]. *)
Definition getItem (key : string) (storage : Storage) : option string :=
  storage key.

(** [localStorage.setItem(key, text)], taken to succeed. *)
Definition setItem (key text : string) (storage : Storage) : Storage :=
  fun k => if k =? key then Some text else storage k.

Record Serializer : Type := {
  JSON_stringify : list Transaction -> string;
  toISOString : float -> string
}.

(** What the component holds between two renders: the state variable
    [transactions], and the storage of the origin. *)
Record AppState : Type := {
  transactions : list Transaction;
  localStorage : Storage
}.

(** What the user does: the form calls [onAddTransaction], a row of the list
    [onDeleteTransaction]. *)
Inductive Event : Type :=
| Add (newTransaction : NewTransaction)
| Delete (id' : string).

Section Lifecycle.

Variable host : Host.
Variable TransactionType : TransactionTypeEnum.
Variable serializer : Serializer.

(** Lines 57-59: the effect, which runs after every render in which
    [transactions] is a new array. *)
Definition persist (current : list Transaction) (storage : Storage) : Storage :=
  setItem "transactions" (JSON_stringify serializer current) storage.

(** The first render: the initializer (lines 10-55) on the stored payload,
    then the effect. *)
Definition mount (storage : Storage) : M AppState :=
  loaded <- initial_transactions host TransactionType (getItem "transactions" storage) ;;
  ret {| transactions := loaded; localStorage := persist loaded storage |}.

(** One event: the updater handed to [setTransactions] (lines 61-72), which
    always returns a new array, then the effect. *)
Definition dispatch (event : Event) (state : AppState) : M AppState :=
  next <- match event with
          | Add newTransaction =>
              addTransaction host newTransaction (transactions state)
          | Delete id' => ret (deleteTransaction id' (transactions state))
          end ;;
  ret {| transactions := next; localStorage := persist next (localStorage state) |}.

Fixpoint run (events : list Event) (state : AppState) : M AppState :=
  match events with
  | [] => ret state
  | event :: rest =>
      next <- dispatch event state ;;
      run rest next
  end.

End Lifecycle.

(** ** A reference host

    The theorems below hold for every host.  To run the model on concrete
    payloads this module supplies one: [JSON.parse] and [Number::toString] as
    ECMA-262 defines them (on UTF-8 strings), a [Date.parse] that reads the
    Date Time String Format of ECMA-262 (of which what
    [Date.prototype.toISOString] writes, and [JSON.stringify] stores for a
    date, is one form) and rejects everything else, and a deterministic clock and
    UUID generator. *)

Module Reference.

(** *** [JSON.parse] (ECMA-262 25.5.1, ECMA-404) *)

Fixpoint skip_ws (s : string) : string :=
  match s with
  | String c rest =>
      if (c =? " ")%char || (c =? "009")%char || (c =? "010")%char || (c =? "013")%char
      then skip_ws rest
      else s
  | EmptyString => s
  end.

Definition byte (n : Z) : ascii := ascii_of_nat (Z.to_nat n).

(** The UTF-8 encoding of a code point (of a lone surrogate too). *)
Definition utf8 (cp : Z) : string :=
  if (cp <? 128)%Z then String (byte cp) ""
  else if (cp <? 2048)%Z then
    String (byte (192 + cp / 64)) (String (byte (128 + cp mod 64)) "")
  else if (cp <? 65536)%Z then
    String (byte (224 + cp / 4096))
      (String (byte (128 + (cp / 64) mod 64)) (String (byte (128 + cp mod 64)) ""))
  else
    String (byte (240 + cp / 262144))
      (String (byte (128 + (cp / 4096) mod 64))
         (String (byte (128 + (cp / 64) mod 64)) (String (byte (128 + cp mod 64)) ""))).

(** Four hexadecimal digits. *)
Definition hex4 (s : string) : option (Z * string) :=
  match s with
  | String a (String b (String c (String d rest))) =>
      match digit_of 16 a, digit_of 16 b, digit_of 16 c, digit_of 16 d with
      | Some x, Some y, Some z, Some w => Some ((((x * 16 + y) * 16 + z) * 16 + w)%Z, rest)
      | _, _, _, _ => None
      end
  | _ => None
  end.

(** The characters of a string literal after its opening quote, up to and
    including the closing one. *)
Fixpoint parse_chars (fuel : nat) (s : string) : option (string * string) :=
  match fuel with
  | O => None
  | S fuel' =>
      match s with
      | EmptyString => None
      | String c rest =>
          if (c =? "034")%char then Some ("", rest)
          else if (nat_of_ascii c <? 32)%nat then None
          else if (c =? "\")%char then
            match rest with
            | String e rest' =>
                let simple (x : ascii) :=
                  match parse_chars fuel' rest' with
                  | Some (tail, r) => Some (String x tail, r)
                  | None => None
                  end in
                if (e =? "034")%char then simple "034"%char
                else if (e =? "\")%char then simple "\"%char
                else if (e =? "/")%char then simple "/"%char
                else if (e =? "b")%char then simple "008"%char
                else if (e =? "f")%char then simple "012"%char
                else if (e =? "n")%char then simple "010"%char
                else if (e =? "r")%char then simple "013"%char
                else if (e =? "t")%char then simple "009"%char
                else if (e =? "u")%char then
                  match hex4 rest' with
                  | Some (hi, after) =>
                      let pair :=
                        if (55296 <=? hi)%Z && (hi <? 56320)%Z then
                          match after with
                          | String "\" (String "u" after') =>
                              match hex4 after' with
                              | Some (lo, after'') =>
                                  if (56320 <=? lo)%Z && (lo <? 57344)%Z
                                  then Some ((65536 + (hi - 55296) * 1024 + (lo - 56320))%Z, after'')
                                  else None
                              | None => None
                              end
                          | _ => None
                          end
                        else None in
                      let '(cp, after1) := match pair with
                                           | Some p => p
                                           | None => (hi, after)
                                           end in
                      match parse_chars fuel' after1 with
                      | Some (tail, r) => Some (utf8 cp ++ tail, r)
                      | None => None
                      end
                  | None => None
                  end
                else None
            | EmptyString => None
            end
          else
            match parse_chars fuel' rest with
            | Some (tail, r) => Some (String c tail, r)
            | None => None
            end
      end
  end.

(** A number: [-]? int frac? exp?, the integer part without leading zeros. *)
Definition parse_number (s : string) : option (float * string) :=
  let '(neg, s1) := match s with
                    | String "-" r => (true, r)
                    | _ => (false, s)
                    end in
  let '(int_part, int_count, rest) :=
    match s1 with
    | String "0" r => (0%Z, 1%Z, r)
    | _ => read_digits 10 0 0 s1
    end in
  if (int_count =? 0)%Z then None
  else
    let frac :=
      match rest with
      | String "." r =>
          let '(m, count, r') := read_digits 10 int_part 0 r in
          if (count =? 0)%Z then None else Some (m, count, r')
      | _ => Some (int_part, 0%Z, rest)
      end in
    match frac with
    | None => None
    | Some (mantissa, frac_count, rest1) =>
        let exponent :=
          match rest1 with
          | String c r =>
              if (c =? "e")%char || (c =? "E")%char then
                let '(eneg, r1) := match r with
                                   | String "-" r' => (true, r')
                                   | String "+" r' => (false, r')
                                   | _ => (false, r)
                                   end in
                let '(n, count, r2) := read_digits 10 0 0 r1 in
                if (count =? 0)%Z then None
                else Some (if eneg then (- n)%Z else n, r2)
              else Some (0%Z, rest1)
          | EmptyString => Some (0%Z, rest1)
          end in
        match exponent with
        | None => None
        | Some (e, rest2) => Some (Float64.of_decimal neg mantissa (e - frac_count), rest2)
        end
    end.

(** A value, with the white space before it already skipped. *)
Fixpoint parse_value (fuel : nat) (s : string) {struct fuel} : option (value * string) :=
  match fuel with
  | O => None
  | S fuel' =>
      match s with
      | String "[" rest =>
          match skip_ws rest with
          | String "]" rest' => Some (VArray [], rest')
          | first =>
              (fix elements (n : nat) (s : string) (acc : list value) {struct n}
                 : option (value * string) :=
                 match n with
                 | O => None
                 | S n' =>
                     match parse_value fuel' (skip_ws s) with
                     | Some (v, after) =>
                         match skip_ws after with
                         | String "," after' => elements n' after' (v :: acc)
                         | String "]" after' => Some (VArray (rev (v :: acc)), after')
                         | _ => None
                         end
                     | None => None
                     end
                 end) fuel' first []
          end
      | String "{" rest =>
          match skip_ws rest with
          | String "}" rest' => Some (VObject [], rest')
          | first =>
              (fix members (n : nat) (s : string) (acc : list (string * value)) {struct n}
                 : option (value * string) :=
                 match n with
                 | O => None
                 | S n' =>
                     match skip_ws s with
                     | String "034" after_quote =>
                         match parse_chars (S (length after_quote)) after_quote with
                         | Some (key, after_key) =>
                             match skip_ws after_key with
                             | String ":" after_colon =>
                                 match parse_value fuel' (skip_ws after_colon) with
                                 | Some (v, after) =>
                                     match skip_ws after with
                                     | String "," after' => members n' after' ((key, v) :: acc)
                                     | String "}" after' =>
                                         Some (VObject (rev ((key, v) :: acc)), after')
                                     | _ => None
                                     end
                                 | None => None
                                 end
                             | _ => None
                             end
                         | None => None
                         end
                     | _ => None
                     end
                 end) fuel' first []
          end
      | String "034" rest =>
          match parse_chars (S (length rest)) rest with
          | Some (str, rest') => Some (VString str, rest')
          | None => None
          end
      | _ =>
          match strip_prefix "true" s, strip_prefix "false" s, strip_prefix "null" s with
          | Some rest, _, _ => Some (VBool true, rest)
          | _, Some rest, _ => Some (VBool false, rest)
          | _, _, Some rest => Some (VNull, rest)
          | _, _, _ =>
              match parse_number s with
              | Some (n, rest) => Some (VNumber n, rest)
              | None => None
              end
          end
      end
  end.

Definition JSON_parse (text : string) : completion value :=
  match parse_value (S (length text)) (skip_ws text) with
  | Some (v, rest) =>
      match skip_ws rest with
      | EmptyString => Normal v
      | _ => Throw (SyntaxError "Unexpected non-whitespace character after JSON")
      end
  | None => Throw (SyntaxError "Unexpected token in JSON")
  end.

(** *** [Number::toString] (ECMA-262 6.1.6.1.20), radix 10 *)

Fixpoint decimal_digits (fuel : nat) (n : Z) (acc : string) : string :=
  let acc' := String (byte (48 + n mod 10)) acc in
  match fuel with
  | O => acc'
  | S fuel' => if (n <? 10)%Z then acc' else decimal_digits fuel' (n / 10) acc'
  end.

Definition decimal (n : Z) : string := decimal_digits (Z.to_nat (Z.log2 n)) n "".

Fixpoint zeros (n : nat) : string :=
  match n with
  | O => ""
  | S n' => String "0" (zeros n')
  end.

(** [x / 10^j] as a fraction, for [x = m * 2^e]. *)
Definition scaled (m : positive) (e j : Z) : Z * Z :=
  ((Zpos m * 2 ^ Z.max e 0 * 10 ^ Z.max (- j) 0)%Z,
   (2 ^ Z.max (- e) 0 * 10 ^ Z.max j 0)%Z).

(** The least [n >= from] with [x < 10^n]. *)
Fixpoint magnitude (fuel : nat) (m : positive) (e : Z) (from : Z) : Z :=
  match fuel with
  | O => from
  | S fuel' =>
      let '(num, den) := scaled m e from in
      if (num <? den)%Z then from else magnitude fuel' m e (from + 1)
  end.

(** The integers [n] and [s] of step 5, for [x = m * 2^e > 0] with
    [10^(n0-1) <= x < 10^n0]: [s] has as few digits as a decimal that reads
    back as [x] can have, and among those is the closest to [x]. *)
Fixpoint shortest (fuel : nat) (x : float) (m : positive) (e n0 k : Z) : Z * Z :=
  let j := (n0 - k)%Z in
  let '(num, den) := scaled m e j in
  let lo := (num / den)%Z in
  let hi := (lo + 1)%Z in
  let ok s := (Float64.of_decimal false s j =? x)%float in
  let pick s := if (s =? 10 ^ k)%Z then ((n0 + 1)%Z, (s / 10)%Z) else (n0, s) in
  match fuel with
  | O => pick lo
  | S fuel' =>
      match ok lo, ok hi with
      | true, true =>
          match (2 * num ?= (2 * lo + 1) * den)%Z with
          | Lt => pick lo
          | Gt => pick hi
          | Eq => pick (if Z.even lo then lo else hi)
          end
      | true, false => pick lo
      | false, true => pick hi
      | false, false => shortest fuel' x m e n0 (k + 1)
      end
  end.

Definition NumberToString (x : float) : string :=
  match Prim2SF x with
  | S754_nan => "NaN"
  | S754_zero _ => "0"
  | S754_infinity s => if s then "-Infinity" else "Infinity"
  | S754_finite sign m e =>
      let n0 := magnitude 640 m e (-323) in
      let '(n, s) := shortest 17 (abs x) m e n0 1 in
      let digits := decimal s in
      let k := Z.of_nat (length digits) in
      let text :=
        if (k <=? n)%Z && (n <=? 21)%Z then digits ++ zeros (Z.to_nat (n - k))
        else if (0 <? n)%Z && (n <=? 21)%Z then
          substring 0 (Z.to_nat n) digits ++ "."
            ++ substring (Z.to_nat n) (Z.to_nat (k - n)) digits
        else if (-6 <? n)%Z && (n <=? 0)%Z then "0." ++ zeros (Z.to_nat (- n)) ++ digits
        else
          let exponent := (if (n - 1 <? 0)%Z then "-" else "+") ++ decimal (Z.abs (n - 1)) in
          if (k =? 1)%Z then digits ++ "e" ++ exponent
          else substring 0 1 digits ++ "." ++ substring 1 (Z.to_nat (k - 1)) digits
                 ++ "e" ++ exponent in
      if sign then "-" ++ text else text
  end.

(** *** [Date.parse] on the Date Time String Format (ECMA-262 21.4.1.32)

    The forms [YYYY], [YYYY-MM] and [YYYY-MM-DD], alone or followed by [T]
    and [HH:mm], [HH:mm:ss] or [HH:mm:ss.sss] and then by [Z], by an offset
    [+HH:mm] or [-HH:mm], or by nothing; the year may be a sign and six
    digits.  A form without a time is read as UTC, and so is a time without
    offset: the zone of this host is UTC.  The day may be up to 31 in every
    month and runs into the next month, and the hour 24 is the end of the
    day, as V8 reads them.  Every other string is rejected, where an engine
    goes on to formats of its own. *)

Definition two_digits (s : string) : option (Z * string) :=
  match s with
  | String a (String b rest) =>
      match digit_of 10 a, digit_of 10 b with
      | Some x, Some y => Some ((x * 10 + y)%Z, rest)
      | _, _ => None
      end
  | _ => None
  end.

(** [n] more decimal digits after those that make [read]. *)
Fixpoint decimal_field (n : nat) (read : Z) (s : string) : option (Z * string) :=
  match n with
  | O => Some (read, s)
  | S n' =>
      match s with
      | String c rest =>
          match digit_of 10 c with
          | Some d => decimal_field n' (read * 10 + d)%Z rest
          | None => None
          end
      | EmptyString => None
      end
  end.

(** The year: four digits, or a sign and six, [-000000] apart. *)
Definition year_field (s : string) : option (Z * string) :=
  match s with
  | String "+" rest => decimal_field 6 0 rest
  | String "-" rest =>
      match decimal_field 6 0 rest with
      | Some (y, rest') => if (y =? 0)%Z then None else Some ((- y)%Z, rest')
      | None => None
      end
  | _ => decimal_field 4 0 s
  end.

(** A field that may be absent: it is there when [sep] is. *)
Definition optional_field (sep : string) (default : Z) (s : string)
  : option (Z * string) :=
  match strip_prefix sep s with
  | Some rest => two_digits rest
  | None => Some (default, s)
  end.

(** The time after [T]: hour, minute, second and millisecond. *)
Definition time_fields (s : string) : option (Z * Z * Z * Z * string) :=
  match two_digits s with
  | Some (h, s1) =>
      match strip_prefix ":" s1 with
      | Some s2 =>
          match two_digits s2 with
          | Some (mi, s3) =>
              match strip_prefix ":" s3 with
              | Some s4 =>
                  match two_digits s4 with
                  | Some (sec, s5) =>
                      match strip_prefix "." s5 with
                      | Some s6 =>
                          match decimal_field 3 0 s6 with
                          | Some (ms, s7) => Some (h, mi, sec, ms, s7)
                          | None => None
                          end
                      | None => Some (h, mi, sec, 0%Z, s5)
                      end
                  | None => None
                  end
              | None => Some (h, mi, 0%Z, 0%Z, s3)
              end
          | None => None
          end
      | None => None
      end
  | None => None
  end.

(** What ends the string after the time: the minutes east of UTC. *)
Definition offset_minutes (s : string) : option Z :=
  match s with
  | EmptyString => Some 0%Z
  | String "Z" EmptyString => Some 0%Z
  | String sign rest =>
      if (sign =? "+")%char || (sign =? "-")%char then
        match two_digits rest with
        | Some (h, rest1) =>
            match strip_prefix ":" rest1 with
            | Some rest2 =>
                match two_digits rest2 with
                | Some (mi, EmptyString) =>
                    if (h <=? 23)%Z && (mi <=? 59)%Z
                    then Some (if (sign =? "-")%char then (- (h * 60 + mi))%Z
                               else (h * 60 + mi)%Z)
                    else None
                | _ => None
                end
            | None => None
            end
        | None => None
        end
      else None
  end.

(** Days from 1970-01-01 to the given day of the proleptic Gregorian
    calendar; a day past the end of the month counts on into the next. *)
Definition days_from_civil (y m d : Z) : Z :=
  let y' := if (m <=? 2)%Z then (y - 1)%Z else y in
  let era := (y' / 400)%Z in
  let yoe := (y' - era * 400)%Z in
  let doy := ((153 * (if (2 <? m)%Z then m - 3 else m + 9) + 2) / 5 + d - 1)%Z in
  let doe := (yoe * 365 + yoe / 4 - yoe / 100 + doy)%Z in
  (era * 146097 + doe - 719468)%Z.

Definition Date_parse (s : string) : float :=
  match year_field s with
  | Some (y, s1) =>
  match optional_field "-" 1 s1 with
  | Some (mo, s2) =>
  match optional_field "-" 1 s2 with
  | Some (d, s3) =>
  match (match strip_prefix "T" s3 with
         | Some s4 =>
             match time_fields s4 with
             | Some (h, mi, sec, ms, s5) =>
                 match offset_minutes s5 with
                 | Some offset => Some (h, mi, sec, ms, offset)
                 | None => None
                 end
             | None => None
             end
         | None =>
             match s3 with
             | EmptyString => Some (0, 0, 0, 0, 0)%Z
             | _ => None
             end
         end) with
  | Some (h, mi, sec, ms, offset) =>
      if (1 <=? mo)%Z && (mo <=? 12)%Z && (1 <=? d)%Z && (d <=? 31)%Z
         && (mi <=? 59)%Z && (sec <=? 59)%Z
         && ((h <=? 23)%Z || ((h =? 24)%Z && (mi =? 0)%Z && (sec =? 0)%Z && (ms =? 0)%Z))
      then Float64.of_Z (days_from_civil y mo d * 86400000
                         + ((h * 60 + mi) * 60 + sec) * 1000 + ms
                         - offset * 60000)
      else nan
  | None => nan end
  | None => nan end
  | None => nan end
  | None => nan end.

(** *** Clock and UUIDs

    The clock starts at 2024-01-01T00:00:00.000Z and advances a millisecond
    per reading; the [n]-th UUID ends in the decimal digits of [n]. *)

Definition clock (n : nat) : float := Float64.of_Z (1704067200000 + Z.of_nat n).

Definition randomUUID (n : nat) : string :=
  let digits := decimal (Z.of_nat n) in
  "00000000-0000-4000-8000-" ++ zeros (12 - length digits) ++ digits.

Definition host : Host :=
  Build_Host clock randomUUID Date_parse NumberToString JSON_parse.

(** An enum whose members are spelled as they are named, as the spec's
    scenario with the lowercase ["income"] has it. *)
Definition TransactionType : TransactionTypeEnum :=
  {| INCOME := "INCOME"; EXPENSE := "EXPENSE" |}.

(** Nothing read, drawn or logged yet. *)
Definition start : World := {| ticks := 0; draws := 0; console := [] |}.

(** *** [Date.prototype.toISOString] (ECMA-262 21.4.4.36) *)

(** The day of the proleptic Gregorian calendar that is [z] days after
    1970-01-01: year, month, day. *)
Definition civil_from_days (z : Z) : Z * Z * Z :=
  let z := (z + 719468)%Z in
  let era := (z / 146097)%Z in
  let doe := (z - era * 146097)%Z in
  let yoe := ((doe - doe / 1460 + doe / 36524 - doe / 146096) / 365)%Z in
  let doy := (doe - (365 * yoe + yoe / 4 - yoe / 100))%Z in
  let mp := ((5 * doy + 2) / 153)%Z in
  let d := (doy - (153 * mp + 2) / 5 + 1)%Z in
  let m := if (mp <? 10)%Z then (mp + 3)%Z else (mp - 9)%Z in
  let y := (yoe + era * 400)%Z in
  (if (m <=? 2)%Z then (y + 1)%Z else y, m, d).

(** [n] in decimal, with zeros in front up to [width] digits. *)
Definition padded (width : nat) (n : Z) : string :=
  let digits := decimal n in
  zeros (width - length digits) ++ digits.

(** For a time value, that is an integer of at most 8.64e15 in absolute
    value. *)
Definition toISOString (tv : float) : string :=
  let ms := Float64.truncate tv in
  let '(y, m, d) := civil_from_days (ms / 86400000) in
  let in_day := (ms mod 86400000)%Z in
  let year := if (0 <=? y)%Z && (y <=? 9999)%Z then padded 4 y
              else (if (y <? 0)%Z then "-" else "+") ++ padded 6 (Z.abs y) in
  year ++ "-" ++ padded 2 m ++ "-" ++ padded 2 d
       ++ "T" ++ padded 2 (in_day / 3600000)
       ++ ":" ++ padded 2 ((in_day / 60000) mod 60)
       ++ ":" ++ padded 2 ((in_day / 1000) mod 60)
       ++ "." ++ padded 3 (in_day mod 1000) ++ "Z".

(** *** [JSON.stringify] (ECMA-262 25.5.2) *)

Definition hex_digit (n : Z) : ascii :=
  if (n <? 10)%Z then byte (48 + n) else byte (87 + n).

(** [QuoteJSONString], after the opening quote: the quote, the backslash and
    the control characters are escaped, and so is a lone surrogate, which in
    these strings is the three bytes [ED A0..BF 80..BF]. *)
Fixpoint quote_chars (s : string) : string :=
  match s with
  | EmptyString => dquote
  | String c rest =>
      let n := Z.of_nat (nat_of_ascii c) in
      let plain :=
        (if (n =? 34)%Z then "\" ++ dquote
         else if (n =? 92)%Z then "\\"
         else if (n =? 8)%Z then "\b"
         else if (n =? 9)%Z then "\t"
         else if (n =? 10)%Z then "\n"
         else if (n =? 12)%Z then "\f"
         else if (n =? 13)%Z then "\r"
         else if (n <? 32)%Z then
           "\u00" ++ String (hex_digit (n / 16)) (String (hex_digit (n mod 16)) "")
         else String c "")
          ++ quote_chars rest in
      match rest with
      | String c1 (String c2 rest') =>
          let n1 := Z.of_nat (nat_of_ascii c1) in
          let n2 := Z.of_nat (nat_of_ascii c2) in
          if (n =? 237)%Z && (160 <=? n1)%Z && (n1 <=? 191)%Z
             && (128 <=? n2)%Z && (n2 <=? 191)%Z
          then
            let unit := (53248 + (n1 - 128) * 64 + (n2 - 128))%Z in
            "\u" ++ String (hex_digit (unit / 4096))
                      (String (hex_digit ((unit / 256) mod 16))
                         (String (hex_digit ((unit / 16) mod 16))
                            (String (hex_digit (unit mod 16)) "")))
                 ++ quote_chars rest'
          else plain
      | _ => plain
      end
  end.

Definition QuoteJSONString (s : string) : string := dquote ++ quote_chars s.

Fixpoint join (separator : string) (parts : list string) : string :=
  match parts with
  | [] => ""
  | [part] => part
  | part :: rest => part ++ separator ++ join separator rest
  end.

(** A property name that is an array index: the decimal of an integer from 0
    to [2^32 - 2], without zeros in front. *)
Definition array_index (key : string) : option Z :=
  match read_digits 10 0 0 key with
  | (n, count, EmptyString) =>
      if (0 <? count)%Z && (n <=? 4294967294)%Z && (key =? decimal n)
      then Some n else None
  | _ => None
  end.

(** The names in the order [JSON.stringify] visits them: the array indices
    by value, then the others as they were first defined. *)
Fixpoint first_defined (keys : list string) (seen : list string) : list string :=
  match keys with
  | [] => []
  | key :: rest =>
      if existsb (String.eqb key) seen then first_defined rest seen
      else key :: first_defined rest (key :: seen)
  end.

Fixpoint insert_index (key : string) (n : Z) (sorted : list (Z * string))
  : list (Z * string) :=
  match sorted with
  | [] => [(n, key)]
  | (m, other) :: rest =>
      if (n <? m)%Z then (n, key) :: sorted else (m, other) :: insert_index key n rest
  end.

Definition own_keys (keys : list string) : list string :=
  let distinct := first_defined keys [] in
  let indices :=
    fold_left (fun sorted key =>
                 match array_index key with
                 | Some n => insert_index key n sorted
                 | None => sorted
                 end) distinct [] in
  (map snd indices
     ++ filter (fun key => match array_index key with Some _ => false | None => true end)
               distinct)%list.

(** The last member of a name, in a list of members already written. *)
Fixpoint last_member (key : string) (members : list (string * option string))
  : option string :=
  match members with
  | [] => None
  | (k, text) :: rest =>
      match last_member key rest with
      | Some found => Some found
      | None => if k =? key then text else None
      end
  end.

(** [SerializeJSONProperty] without indentation: [None] where the value is
    [undefined], which an object leaves out and an array writes as [null].
    A number that is not finite is written [null]. *)
Fixpoint serialize (v : value) : option string :=
  match v with
  | VUndefined => None
  | VNull => Some "null"
  | VBool true => Some "true"
  | VBool false => Some "false"
  | VNumber n => Some (if is_finite n then NumberToString n else "null")
  | VString s => Some (QuoteJSONString s)
  | VArray elems =>
      Some ("[" ++ join ","
                     ((fix each (l : list value) : list string :=
                         match l with
                         | [] => []
                         | x :: rest =>
                             match serialize x with
                             | Some text => text
                             | None => "null"
                             end :: each rest
                         end) elems)
                ++ "]")
  | VObject props =>
      let members :=
        (fix each (l : list (string * value)) : list (string * option string) :=
           match l with
           | [] => []
           | (k, x) :: rest => (k, serialize x) :: each rest
           end) props in
      Some ("{" ++ join ","
                     (flat_map (fun key =>
                                  match last_member key members with
                                  | Some text => [QuoteJSONString key ++ ":" ++ text]
                                  | None => []
                                  end)
                               (own_keys (map fst members)))
                ++ "}")
  end.

(** A member of an object, as written. *)
Definition written (name text : string) : string :=
  QuoteJSONString name ++ ":" ++ text.

Definition written_if (name : string) (text : option string) : list string :=
  match text with
  | Some text => [written name text]
  | None => []
  end.

(** A transaction, with the members in the order the initializer defines
    them; its date is written by [toJSON], [null] for the invalid date. *)
Definition serialize_transaction (t : Transaction) : string :=
  let date_text :=
    if is_finite (getTime (date t))
    then QuoteJSONString (toISOString (getTime (date t)))
    else "null" in
  let members :=
    ([written "id" (QuoteJSONString (id t));
      written "description" (QuoteJSONString (description t))]
       ++ written_if "amount" (serialize (amount t))
       ++ written_if "type" (serialize (type t))
       ++ [written "date" date_text])%list in
  "{" ++ join "," members ++ "}".

Definition JSON_stringify (transactions : list Transaction) : string :=
  "[" ++ join "," (map serialize_transaction transactions) ++ "]".

Definition serializer : Serializer := Build_Serializer JSON_stringify toISOString.

(** *** Sample payloads *)

Definition quoted (s : string) : string := dquote ++ s ++ dquote.

Definition member (name json : string) : string := quoted name ++ ":" ++ json.

(** The text
    [[{"id":"a","description":"Salary","amount":1000,"type":"INCOME","date":"2024-01-01T00:00:00.000Z"},null]] *)
Definition payload_with_null : string :=
  "[{" ++ member "id" (quoted "a") ++ "," ++ member "description" (quoted "Salary")
       ++ "," ++ member "amount" "1000" ++ "," ++ member "type" (quoted "INCOME")
       ++ "," ++ member "date" (quoted "2024-01-01T00:00:00.000Z") ++ "},null]".

(** The text
    [[{"description":"Salary","amount":1000,"type":"INCOME","id":"a","date":"2024-01-01T00:00:00.000Z"}]],
    with the members in the order line 64 creates them. *)
Definition payload_as_added : string :=
  "[{" ++ member "description" (quoted "Salary") ++ "," ++ member "amount" "1000"
       ++ "," ++ member "type" (quoted "INCOME") ++ "," ++ member "id" (quoted "a")
       ++ "," ++ member "date" (quoted "2024-01-01T00:00:00.000Z") ++ "}]".

(** The text [[{"id":"a","amount":"50","type":"income"}]] of the
    specification's scenario. *)
Definition payload_lowercase : string :=
  "[{" ++ member "id" (quoted "a") ++ "," ++ member "amount" (quoted "50")
       ++ "," ++ member "type" (quoted "income") ++ "}]".

(** The record [{"id":"a","date":"not-a-date"}]. *)
Definition record_with_bad_date : value :=
  VObject [("id", VString "a"); ("date", VString "not-a-date")].

(** The record [{"id":"a","amount":"abc"}]. *)
Definition record_with_bad_amount : value :=
  VObject [("id", VString "a"); ("amount", VString "abc")].

(** The record [{"id":{"toString":1}}], whose id has no string form, and the
    text [[{"id":{"toString":1}}]]. *)
Definition record_with_unprintable_id : value :=
  VObject [("id", VObject [("toString", VNumber 1)])].

Definition payload_with_unprintable_id : string :=
  "[{" ++ member "id" ("{" ++ member "toString" "1" ++ "}") ++ "}]".

End Reference.

(** ** The aggregation as the specification words it

    "The sum of [amount] over all transactions where ...": the amounts that
    qualify, in the order of the collection, added up from zero. *)

Definition sum (amounts : list float) : float :=
  fold_left PrimFloat.add amounts zero.

Definition is_income (TransactionType : TransactionTypeEnum) (t : Transaction) : bool :=
  strict_equals_string (type t) (INCOME TransactionType).

(** The amounts of the transactions that satisfy [p] and whose amount is a
    number; a transaction whose amount is not a number contributes nothing. *)
Definition numeric_amounts (p : Transaction -> bool) (transactions : list Transaction)
  : list float :=
  flat_map (fun t => match amount t with
                     | VNumber a => if p t then [a] else []
                     | _ => []
                     end) transactions.

Definition spec_totalIncome (TransactionType : TransactionTypeEnum)
           (transactions : list Transaction) : float :=
  sum (numeric_amounts (is_income TransactionType) transactions).

Definition spec_totalExpenses (TransactionType : TransactionTypeEnum)
           (transactions : list Transaction) : float :=
  sum (numeric_amounts (fun t => negb (is_income TransactionType t)) transactions).

(** An amount that is an integer ([Number.isInteger]): it is the binary64
    value of its integer part, or it is the negative zero, whose integer part
    is 0 and which [Float64.of_Z] never returns. *)
Definition is_integer (a : float) : Prop :=
  a = Float64.of_Z (Float64.truncate a) \/ a = neg_zero.

(** The sum of the absolute values of integer amounts, and their sum, as
    integers. *)
Definition magnitude (amounts : list float) : Z :=
  fold_right (fun a total => (Z.abs (Float64.truncate a) + total)%Z) 0%Z amounts.

Definition integer_total (amounts : list float) : Z :=
  fold_right (fun a total => (Float64.truncate a + total)%Z) 0%Z amounts.

(** Every numeric amount of the collection is an integer and their absolute
    values add up to less than [2^53]: every partial sum is then a safe
    integer ([Number.isSafeInteger]) and no addition rounds. *)
Definition safe_integer_amounts (transactions : list Transaction) : Prop :=
  Forall is_integer (numeric_amounts (fun _ => true) transactions)
  /\ (magnitude (numeric_amounts (fun _ => true) transactions) < 2 ^ 53)%Z.

(** The two collections have the same numeric incomes in the same order, and
    the same numeric amounts of the other kind in the same order. *)
Definition same_order_within_kinds (E : TransactionTypeEnum)
           (l l' : list Transaction) : Prop :=
  numeric_amounts (is_income E) l = numeric_amounts (is_income E) l'
  /\ numeric_amounts (fun t => negb (is_income E t)) l
     = numeric_amounts (fun t => negb (is_income E t)) l'.

(** A date that is missing, or that [new Date] turns into the invalid date. *)
Definition date_unusable (host : Host) (t : value) : Prop :=
  Get t "date" = Normal VUndefined
  \/ exists d parsed, Get t "date" = Normal d
                      /\ new_Date host d = Normal parsed
                      /\ is_nan (getTime parsed) = true.

(** How many transactions of a collection carry a given id. *)
Definition occurrences (id' : string) (transactions : list Transaction) : nat :=
  List.length (filter (fun t => id t =? id') transactions).

(** [needle] occurs in [text]. *)
Definition mentions (text needle : string) : Prop :=
  exists before after, text = before ++ needle ++ after.

(** ** Sample collections *)

Definition income_of (E : TransactionTypeEnum) (id' : string) (a : float) : Transaction :=
  {| id := id'; description := "income"; amount := VNumber a;
     type := VString (INCOME E); date := {| getTime := Reference.clock 0 |} |}.

Definition expense_of (E : TransactionTypeEnum) (id' : string) (a : float) : Transaction :=
  {| id := id'; description := "expense"; amount := VNumber a;
     type := VString (EXPENSE E); date := {| getTime := Reference.clock 0 |} |}.

(** Three incomes of 0.1, 0.2 and 0.3, and the same three in the opposite
    order. *)
#[warnings="-inexact-float"]
Definition three_incomes (E : TransactionTypeEnum) : list Transaction :=
  [ income_of E "a" 0.1; income_of E "b" 0.2; income_of E "c" 0.3 ].

Definition three_incomes_reversed (E : TransactionTypeEnum) : list Transaction :=
  rev (three_incomes E).

(** Two incomes around an expense, and the same three with the expense moved
    to the front. *)
#[warnings="-inexact-float"]
Definition mixed_ledger : list Transaction :=
  [ income_of Reference.TransactionType "a" 0.1;
    expense_of Reference.TransactionType "e" 5;
    income_of Reference.TransactionType "b" 0.2 ].

#[warnings="-inexact-float"]
Definition mixed_ledger_moved : list Transaction :=
  [ expense_of Reference.TransactionType "e" 5;
    income_of Reference.TransactionType "a" 0.1;
    income_of Reference.TransactionType "b" 0.2 ].

(** Integer amounts, a negative one and the negative zero among them, and
    the same amounts in the opposite order. *)
Definition integer_ledger : list Transaction :=
  [ income_of Reference.TransactionType "z" neg_zero;
    income_of Reference.TransactionType "a" 1000;
    expense_of Reference.TransactionType "b" 200;
    income_of Reference.TransactionType "c" (-250);
    expense_of Reference.TransactionType "y" neg_zero;
    expense_of Reference.TransactionType "d" 50 ].

Definition integer_ledger_reversed : list Transaction := rev integer_ledger.

(** The scenarios of the specification: a salary of 1000 and a collection of
    an income of 1000 and an expense of 200. *)
Definition salary : NewTransaction :=
  {| new_description := "Salary"; new_amount := VNumber 1000;
     new_type := VString (INCOME Reference.TransactionType) |}.

Definition income_and_expense : list Transaction :=
  [ income_of Reference.TransactionType "a" 1000;
    expense_of Reference.TransactionType "b" 200 ].

(** A value that is neither an array nor an object. *)
Definition scalar (v : value) : bool :=
  match v with
  | VArray _ | VObject _ => false
  | _ => true
  end.

(** A record all of whose members are scalars, as the persisted layout has
    them. *)
Definition flat_record (props : list (string * value)) : Prop :=
  Forall (fun member => scalar (snd member) = true) props.

(** ** What is written and read back

    [v] is the decoded form of [t] as [JSON.stringify] writes it: an object
    whose members [id], [description], [amount], [type] are those of [t] and
    whose [date] is the ISO string of the date of [t]. *)
Definition represents (S : Serializer) (v : value) (t : Transaction) : Prop :=
  exists props,
    v = VObject props
    /\ own_property "id" props = Some (VString (id t))
    /\ own_property "description" props = Some (VString (description t))
    /\ own_property "amount" props = Some (amount t)
    /\ own_property "type" props = Some (type t)
    /\ own_property "date" props
       = Some (VString (toISOString S (getTime (date t)))).

(** A transaction that the initializer leaves as it is: its id and its
    description are not empty, its amount is a number other than [NaN] and
    the negative zero, its type is a value of the enum, and its date is a
    time value that [Date.parse] reads back from its ISO string. *)
Definition persistable (host : Host) (S : Serializer) (E : TransactionTypeEnum)
           (t : Transaction) : Prop :=
  id t <> ""
  /\ description t <> ""
  /\ (exists a, amount t = VNumber a
                /\ is_nan a = false
                /\ (is_zero a = true -> a = zero))
  /\ (type t = VString (INCOME E) \/ type t = VString (EXPENSE E))
  /\ toISOString S (getTime (date t)) <> ""
  /\ TimeClip (Date_parse host (toISOString S (getTime (date t)))) = getTime (date t)
  /\ is_nan (getTime (date t)) = false.

(** The text [saved] decodes to the collection: to an array of objects that
    carry, in any order, the members of its transactions.  This is what
    [JSON.parse] makes of the text [JSON.stringify] wrote for the collection,
    whatever the order in which the members were written. *)
Definition decodes_to (host : Host) (S : Serializer) (saved : string)
           (current : list Transaction) : Prop :=
  exists elems,
    JSON_parse host saved = Normal (VArray elems)
    /\ Forall2 (represents S) elems current.

(** The ids of a collection, and the UUIDs a sequence of events draws when
    [from] have been drawn before it. *)
Definition ids (current : list Transaction) : list string := map id current.

Definition additions (events : list Event) : nat :=
  List.length (filter (fun event => match event with Add _ => true | Delete _ => false end)
                      events).

Definition drawn (host : Host) (from : nat) (events : list Event) : list string :=
  map (randomUUID host) (seq from (additions events)).

(** A payload the initializer gives up on: it does not decode, or not to an
    array, or to an array that holds a [null]. *)
Definition unreadable (host : Host) (saved : string) : Prop :=
  (exists e, JSON_parse host saved = Throw e)
  \/ (exists v, JSON_parse host saved = Normal v /\ forall elems, v <> VArray elems)
  \/ (exists elems, JSON_parse host saved = Normal (VArray elems) /\ In VNull elems).

(** An array of records whose members are scalars. *)
Definition flat_array (elems : list value) : Prop :=
  Forall (fun v => exists props, v = VObject props /\ flat_record props) elems.

(** The diagnostics that are errors. *)
Definition is_error (d : Diagnostic) : bool :=
  match d with
  | Error _ _ => true
  | Warn _ => false
  end.

(** A transaction as the initializer leaves it: its amount is a number and its
    type a member of the enum. *)
Definition well_formed (E : TransactionTypeEnum) (t : Transaction) : Prop :=
  (exists n, amount t = VNumber n)
  /\ (type t = VString (INCOME E) \/ type t = VString (EXPENSE E)).

(** ** Sample storages, sessions and records *)

(** A storage that holds nothing, and one that holds a payload. *)
Definition empty_storage : Storage := fun _ => None.

Definition storage_holding (saved : string) : Storage :=
  setItem "transactions" saved empty_storage.

(** A session of two additions around a deletion, on a collection of two. *)
Definition sample_session : list Event :=
  [Add salary; Delete "b"; Add salary].

Definition sample_state : AppState :=
  {| transactions := income_and_expense; localStorage := empty_storage |}.

(** An income whose amount is [NaN]. *)
Definition nan_income : Transaction := income_of Reference.TransactionType "n" nan.

(** A record as it is stored, and the transaction it is read as. *)
Definition stored_salary : value :=
  VObject [("id", VString "a"); ("description", VString "Salary");
           ("amount", VNumber 1000); ("type", VString "INCOME");
           ("date", VString "2024-01-01T00:00:00.000Z")].

Definition salary_of_new_year : Transaction :=
  {| id := "a"; description := "Salary"; amount := VNumber 1000;
     type := VString "INCOME"; date := {| getTime := Reference.clock 0 |} |}.

(** A record with neither id nor date, the transaction it is read as on the
    reference host, and the world after it. *)
Definition anonymous_record : value := VObject [("amount", VNumber 5)].

Definition anonymous_expense : Transaction :=
  {| id := Reference.randomUUID 0; description := "N/A"; amount := VNumber 5;
     type := VString "EXPENSE"; date := {| getTime := Reference.clock 0 |} |}.

Definition after_anonymous_record : World :=
  {| ticks := 1; draws := 1; console := [Warn (missing_date_warning "undefined")] |}.

(** * Properties *)

(** ** Aggregation *)

Lemma fold_accumulate (E : TransactionTypeEnum) (transactions : list Transaction) :
  forall income expenses,
    fold_left (accumulate E) transactions (income, expenses)
    = (fold_left PrimFloat.add (numeric_amounts (is_income E) transactions) income,
       fold_left PrimFloat.add
         (numeric_amounts (fun t => negb (is_income E t)) transactions) expenses).
Proof.
  induction transactions as [|t rest IH]; intros income expenses.
  - reflexivity.
  - cbn [fold_left numeric_amounts flat_map].
    fold (numeric_amounts (is_income E) rest).
    fold (numeric_amounts (fun t => negb (is_income E t)) rest).
    unfold accumulate at 2, is_income at 1 3.
    destruct (amount t); try apply IH.
    destruct (strict_equals_string (type t) (INCOME E)); cbn [negb app fold_left]; apply IH.
Qed.

(** C1: for every collection, [totalIncome] is the sum of the numeric amounts
    of the transactions whose type is INCOME, [totalExpenses] the sum of the
    numeric amounts of the others, a transaction whose amount is not a number
    being skipped in both, and [balance] is [totalIncome - totalExpenses]. *)
Theorem aggregate_totals (E : TransactionTypeEnum) (transactions : list Transaction) :
  totalIncome (aggregate E transactions) = spec_totalIncome E transactions
  /\ totalExpenses (aggregate E transactions) = spec_totalExpenses E transactions
  /\ balance (aggregate E transactions)
     = (totalIncome (aggregate E transactions)
        - totalExpenses (aggregate E transactions))%float.
Proof.
  unfold aggregate, spec_totalIncome, spec_totalExpenses, sum.
  rewrite fold_accumulate. cbn. repeat split.
Qed.

(** ** Deletion *)

Lemma deleteTransaction_app (id' : string) (l1 l2 : list Transaction) :
  deleteTransaction id' (l1 ++ l2)%list
  = (deleteTransaction id' l1 ++ deleteTransaction id' l2)%list.
Proof. unfold deleteTransaction. apply filter_app. Qed.

Lemma deleteTransaction_absent (id' : string) (l : list Transaction) :
  (forall u, In u l -> id u <> id') -> deleteTransaction id' l = l.
Proof.
  induction l as [|t rest IH]; intros Habsent.
  - reflexivity.
  - cbn. destruct (String.eqb_spec (id t) id') as [Heq|Hne].
    + exfalso. apply (Habsent t); [left; reflexivity | exact Heq].
    + cbn. f_equal. apply IH. intros u Hu. apply Habsent. right. exact Hu.
Qed.

Lemma deleteTransaction_In (id' : string) (l : list Transaction) (u : Transaction) :
  In u (deleteTransaction id' l) <-> In u l /\ id u <> id'.
Proof.
  unfold deleteTransaction. rewrite filter_In, negb_true_iff.
  split; intros [Hin H]; split; try exact Hin.
  - intro Heq. apply String.eqb_eq in Heq. congruence.
  - apply String.eqb_neq. exact H.
Qed.

(** C7: deleting an id that exactly one element carries removes that element
    and leaves the others in their order; deleting an id that no element
    carries returns the collection unchanged.  [deleteTransaction] is a total
    function: there is no error to raise. *)
Theorem deleteTransaction_unique (id' : string) (l : list Transaction) :
  (forall before t after,
      l = (before ++ t :: after)%list ->
      id t = id' ->
      (forall u, In u (before ++ after)%list -> id u <> id') ->
      deleteTransaction id' l = (before ++ after)%list)
  /\ ((forall u, In u l -> id u <> id') -> deleteTransaction id' l = l).
Proof.
  split.
  - intros before t after -> Hid Hothers.
    change (t :: after) with ([t] ++ after)%list.
    rewrite !deleteTransaction_app.
    assert (Ht : deleteTransaction id' [t] = []).
    { unfold deleteTransaction. cbn. rewrite Hid, String.eqb_refl. reflexivity. }
    rewrite Ht. cbn [app].
    rewrite <- deleteTransaction_app. apply deleteTransaction_absent. exact Hothers.
  - apply deleteTransaction_absent.
Qed.

(** C10: one call removes every element that carries the id, duplicates
    included: no element of the result has it, the result is shorter by the
    number of elements that had it, and every other element is kept. *)
Theorem deleteTransaction_all (id' : string) (l : list Transaction) :
  Forall (fun u => id u <> id') (deleteTransaction id' l)
  /\ (List.length (deleteTransaction id' l) + occurrences id' l = List.length l)%nat
  /\ (forall u, In u l -> id u <> id' -> In u (deleteTransaction id' l))
  /\ deleteTransaction id' (deleteTransaction id' l) = deleteTransaction id' l.
Proof.
  repeat split.
  - apply Forall_forall. intros u Hu. apply deleteTransaction_In in Hu. tauto.
  - unfold occurrences, deleteTransaction.
    induction l as [|t rest IH]; [reflexivity|].
    cbn. destruct (id t =? id'); cbn; lia.
  - intros u Hin Hne. apply deleteTransaction_In. tauto.
  - apply deleteTransaction_absent. intros u Hu.
    apply deleteTransaction_In in Hu. tauto.
Qed.

(** ** Addition followed by deletion *)

(** C8: when the freshly drawn id is carried by no element of the
    collection, [addTransaction] appends one transaction with that id, and
    deleting that id from the result gives back the collection as it was. *)
Theorem add_then_delete (host : Host) (newTransaction : NewTransaction)
        (prevTransactions : list Transaction) (w : World) :
  (forall u, In u prevTransactions -> id u <> randomUUID host (draws w)) ->
  exists added w',
    addTransaction host newTransaction prevTransactions w
    = (Normal (prevTransactions ++ [added])%list, w')
    /\ id added = randomUUID host (draws w)
    /\ deleteTransaction (id added) (prevTransactions ++ [added])%list = prevTransactions.
Proof.
  intros Hfresh. eexists. eexists. split; [reflexivity|]. split; [reflexivity|].
  rewrite deleteTransaction_app. cbn. rewrite String.eqb_refl. cbn.
  rewrite app_nil_r. apply deleteTransaction_absent. exact Hfresh.
Qed.

(** ** Computations *)

Lemma bind_Normal {A B} (m : M A) (k : A -> M B) (w w' : World) (b : B) :
  bind m k w = (Normal b, w') ->
  exists a w1, m w = (Normal a, w1) /\ k a w1 = (Normal b, w').
Proof.
  unfold bind. destruct (m w) as [[a|e] w1]; intros H.
  - exists a, w1. split; [reflexivity | exact H].
  - discriminate.
Qed.

Lemma Get_object (props : list (string * value)) (k : string) :
  Get (VObject props) k
  = Normal (match own_property k props with Some x => x | None => VUndefined end).
Proof. unfold Get. destruct (own_property k props); reflexivity. Qed.

(** ** The type field *)

Lemma includes_enumerated (E : TransactionTypeEnum) (raw : value) :
  includes (Object_values E) raw = true ->
  raw = VString (INCOME E) \/ raw = VString (EXPENSE E).
Proof.
  unfold includes, Object_values. cbn [existsb].
  rewrite !orb_true_iff. unfold strict_equals_string.
  destruct raw; intros [H|[H|H]]; try discriminate;
    apply String.eqb_eq in H; subst; auto.
Qed.

Lemma repair_type_object (E : TransactionTypeEnum) (props : list (string * value))
      (w : World) :
  exists ty, repair_type E (VObject props) w = (Normal ty, w).
Proof.
  unfold repair_type, bind, lift, ret. rewrite Get_object.
  match goal with |- context [includes ?vs ?raw] => destruct (includes vs raw) end;
    eexists; reflexivity.
Qed.

(** C4: the type of a normalized record is INCOME or EXPENSE, and it is
    EXPENSE whenever the stored type is not a value of the enum; the stored
    string ["income"] gives EXPENSE when, as the specification has it, no
    member of the enum is spelled that way. *)
Theorem repair_type_enumerated (host : Host) (E : TransactionTypeEnum)
        (props : list (string * value)) :
  exists ty,
    (forall w, repair_type E (VObject props) w = (Normal ty, w))
    /\ (ty = VString (INCOME E) \/ ty = VString (EXPENSE E))
    /\ (forall raw, Get (VObject props) "type" = Normal raw ->
                    includes (Object_values E) raw = false ->
                    ty = VString (EXPENSE E))
    /\ (own_property "type" props = Some (VString "income") ->
        INCOME E <> "income" -> EXPENSE E <> "income" ->
        ty = VString (EXPENSE E))
    /\ (forall w r w', normalize host E (VObject props) w = (Normal r, w') ->
                       type r = ty).
Proof.
  set (raw := match own_property "type" props with Some x => x | None => VUndefined end).
  assert (Hget : Get (VObject props) "type" = Normal raw) by apply Get_object.
  exists (if includes (Object_values E) raw then raw else VString (EXPENSE E)).
  assert (Hrun : forall w, repair_type E (VObject props) w
                           = (Normal (if includes (Object_values E) raw
                                      then raw else VString (EXPENSE E)), w)).
  { intros w. unfold repair_type, bind, lift, ret. rewrite Hget.
    destruct (includes (Object_values E) raw); reflexivity. }
  split; [exact Hrun|]. split; [|split; [|split]].
  - destruct (includes (Object_values E) raw) eqn:Hin.
    + apply includes_enumerated. exact Hin.
    + right. reflexivity.
  - intros raw' Hraw' Hnot. rewrite Hget in Hraw'. inversion Hraw'; subst raw'.
    rewrite Hnot. reflexivity.
  - intros Hstored Hi He. subst raw. rewrite Hstored.
    unfold includes, Object_values. cbn [existsb strict_equals_string].
    apply not_eq_sym in Hi. apply not_eq_sym in He.
    apply String.eqb_neq in Hi. apply String.eqb_neq in He.
    rewrite Hi, He. reflexivity.
  - intros w r w' Hnorm. unfold normalize in Hnorm.
    apply bind_Normal in Hnorm as (d & w1 & _ & Hnorm).
    apply bind_Normal in Hnorm as (i & w2 & _ & Hnorm).
    apply bind_Normal in Hnorm as (ds & w3 & _ & Hnorm).
    apply bind_Normal in Hnorm as (a & w4 & _ & Hnorm).
    apply bind_Normal in Hnorm as (ty & w5 & Hty & Hnorm).
    rewrite Hrun in Hty. inversion Hty; subst.
    unfold ret in Hnorm. inversion Hnorm. reflexivity.
Qed.

(** ** Payloads that are not arrays *)

(** C5: a payload that fails to decode, or that decodes to something other
    than an array, gives the empty collection: the initializer returns
    normally, no exception escapes, and (the payload not being the empty
    string, which is not decoded at all) one diagnostic is logged. *)
Theorem undecodable_payload_is_empty (host : Host) (E : TransactionTypeEnum)
        (saved : string) (w : World) :
  (exists e, JSON_parse host saved = Throw e)
  \/ (exists v, JSON_parse host saved = Normal v /\ forall elems, v <> VArray elems) ->
  exists w',
    initial_transactions host E (Some saved) w = (Normal [], w')
    /\ ticks w' = ticks w /\ draws w' = draws w
    /\ (saved <> "" -> exists d, console w' = (console w ++ [d])%list).
Proof.
  intros Hbad. unfold initial_transactions.
  destruct (String.eqb_spec saved "") as [Hempty|Hfull]; cbn [negb].
  - exists w. repeat split. intros H. contradiction.
  - unfold try_catch, bind, lift.
    destruct Hbad as [[e He]|[v [Hv Hshape]]].
    + rewrite He. eexists. split; [reflexivity|]. cbn. repeat split.
      intros _. eexists. reflexivity.
    + rewrite Hv. destruct v; try (exfalso; eapply Hshape; reflexivity);
        (eexists; split; [reflexivity|]; cbn; repeat split; intros _; eexists; reflexivity).
Qed.

(** ** The amount field *)

Lemma repair_amount_falsy (host : Host) (t a : value) (w : World) :
  Get t "amount" = Normal a -> ToBoolean a = false ->
  repair_amount host t w = (Normal zero, w).
Proof.
  intros Hget Hfalsy. unfold repair_amount, bind, lift. rewrite Hget, Hfalsy.
  reflexivity.
Qed.

Lemma repair_amount_50 (host : Host) (w : World) :
  repair_amount host (VObject [("amount", VString "50")]) w = (Normal 50%float, w).
Proof. vm_compute. reflexivity. Qed.

(** C2, where the code departs from it: a stored amount that is a string and
    does not read as a number is truthy, so [Number] is applied to it and the
    normalized amount is [NaN], not [0]. *)
Theorem repair_amount_non_numeric (host : Host) (w : World) :
  repair_amount host Reference.record_with_bad_amount w = (Normal nan, w).
Proof. vm_compute. reflexivity. Qed.

(** ** Elements that make the callback throw *)

Lemma normalize_null (host : Host) (E : TransactionTypeEnum) (w : World) :
  normalize host E VNull w
  = (Throw (TypeError "Cannot read properties of null (reading 'id')"), w).
Proof. reflexivity. Qed.

Lemma mapM_normalize_null (host : Host) (E : TransactionTypeEnum) (elems : list value) :
  In VNull elems ->
  forall w, exists e w', mapM (normalize host E) elems w = (Throw e, w').
Proof.
  induction elems as [|x rest IH]; intros Hin w; [destruct Hin|].
  cbn [mapM]. unfold bind at 1.
  destruct (normalize host E x w) as [[r|e] w1] eqn:Hx.
  - destruct Hin as [->|Hin].
    + rewrite normalize_null in Hx. discriminate.
    + destruct (IH Hin w1) as (e & w' & Hrest).
      exists e, w'. unfold bind. rewrite Hrest. reflexivity.
  - exists e, w1. reflexivity.
Qed.

(** C3, where the code departs from it: when the decoded array holds a
    [null], reading [t.id] for the diagnostic throws, the exception is caught
    by the handler of the decoding failure, and the collection is empty: every
    element is dropped, the well-formed ones too. *)
Theorem null_element_empties_collection (host : Host) (E : TransactionTypeEnum)
        (saved : string) (elems : list value) (w : World) :
  saved <> "" ->
  JSON_parse host saved = Normal (VArray elems) ->
  In VNull elems ->
  exists e w1,
    initial_transactions host E (Some saved) w
    = (Normal [],
       {| ticks := ticks w1; draws := draws w1;
          console := (console w1
                        ++ [Error "Failed to parse transactions from localStorage:" e])%list |}).
Proof.
  intros Hfull Hparse Hnull. unfold initial_transactions.
  apply String.eqb_neq in Hfull. rewrite Hfull. cbn [negb].
  destruct (mapM_normalize_null host E elems Hnull w) as (e & w1 & Hthrow).
  exists e, w1. unfold try_catch, bind at 1, lift. rewrite Hparse.
  unfold bind at 1. rewrite Hthrow. reflexivity.
Qed.

Lemma null_element_empties_collection_witness :
  exists e w1,
    initial_transactions Reference.host Reference.TransactionType
                         (Some Reference.payload_with_null) Reference.start
    = (Normal [],
       {| ticks := ticks w1; draws := draws w1;
          console := (console w1
                        ++ [Error "Failed to parse transactions from localStorage:" e])%list |}).
Proof.
  eapply null_element_empties_collection.
  - discriminate.
  - vm_compute. reflexivity.
  - right. left. reflexivity.
Defined.

(** ** The date field *)

(** What the repairs after the date do to the world: [repair_id] may draw a
    UUID, the others change nothing; none of them logs. *)

Lemma repair_id_console (host : Host) (t : value) (w w' : World) (i : string) :
  repair_id host t w = (Normal i, w') -> console w' = console w /\ ticks w' = ticks w.
Proof.
  unfold repair_id, bind, lift, crypto_randomUUID.
  destruct (Get t "id") as [t_id|e]; [|discriminate].
  destruct (ToBoolean t_id).
  - destruct (ToString host t_id); intros H; inversion H; subst; split; reflexivity.
  - cbn. intros H; inversion H; subst; split; reflexivity.
Qed.

Lemma lifted_world {A} (c : completion value) (k : value -> completion A)
      (w w' : World) (a : A) :
  bind (lift c) (fun x => lift (k x)) w = (Normal a, w') -> w' = w.
Proof.
  unfold bind, lift. destruct c as [x|e]; intros H; inversion H; reflexivity.
Qed.

Lemma repair_type_world (E : TransactionTypeEnum) (t : value) (w w' : World) (ty : value) :
  repair_type E t w = (Normal ty, w') -> w' = w.
Proof.
  unfold repair_type, bind, lift, ret. destruct (Get t "type") as [x|e]; [|discriminate].
  destruct (includes (Object_values E) x); intros H; inversion H; reflexivity.
Qed.

Lemma normalize_date (host : Host) (E : TransactionTypeEnum) (t : value)
      (w w' : World) (r : Transaction) :
  normalize host E t w = (Normal r, w') ->
  exists w1, repair_date host t w = (Normal (date r), w1) /\ console w' = console w1.
Proof.
  intros Hnorm. unfold normalize in Hnorm.
  apply bind_Normal in Hnorm as (d & w1 & Hdate & Hnorm).
  apply bind_Normal in Hnorm as (i & w2 & Hid & Hnorm).
  apply bind_Normal in Hnorm as (ds & w3 & Hdesc & Hnorm).
  apply bind_Normal in Hnorm as (a & w4 & Hamount & Hnorm).
  apply bind_Normal in Hnorm as (ty & w5 & Htype & Hnorm).
  apply repair_id_console in Hid as [Hconsole _].
  apply lifted_world in Hdesc. apply lifted_world in Hamount.
  apply repair_type_world in Htype. subst w5 w4 w3.
  unfold ret in Hnorm. inversion Hnorm; subst. cbn [date].
  exists w1. split; [exact Hdate | exact Hconsole].
Qed.

Lemma new_Date_ToString (host : Host) (d : value) (parsed : Date) :
  new_Date host d = Normal parsed -> exists text, ToString host d = Normal text.
Proof.
  unfold new_Date, ToPrimitive. intros H.
  destruct d; try (eexists; reflexivity).
  - destruct b; eexists; reflexivity.
  - destruct (ToString host (VArray elems)) as [text|e]; [eexists; reflexivity | discriminate].
  - destruct (ToString host (VObject props)) as [text|e]; [eexists; reflexivity | discriminate].
Qed.

Lemma mentions_missing (id_text : string) :
  mentions (missing_date_warning id_text) id_text.
Proof.
  exists "Missing or invalid date for transaction (id: ",
         "). Using current date as fallback.". reflexivity.
Qed.

Lemma mentions_invalid (id_text date_text : string) :
  mentions (invalid_date_warning id_text date_text) id_text.
Proof.
  exists ("Invalid date format for transaction id " ++ dquote),
         (dquote ++ ", value " ++ dquote ++ date_text ++ dquote
            ++ ". Using current date as fallback.").
  reflexivity.
Qed.

(** The date step on a record whose date is unusable: once the id has been
    converted for the diagnostic, the step logs one warning that quotes it and
    returns the time of the clock. *)
Lemma repair_date_fallback (host : Host) (t : value) (w : World) (id_text : string) :
  date_unusable host t ->
  cbind (Get t "id") (ToString host) = Normal id_text ->
  exists msg,
    mentions msg id_text
    /\ repair_date host t w
       = (Normal {| getTime := clock host (ticks w) |},
          {| ticks := S (ticks w); draws := draws w;
             console := (console w ++ [Warn msg])%list |}).
Proof.
  intros Hdate Hid.
  assert (Helse :
            (id_text <- lift (cbind (Get t "id") (ToString host)) ;;
             console_warn (missing_date_warning id_text) ;;;
             new_Date_now host) w
            = (Normal {| getTime := clock host (ticks w) |},
               {| ticks := S (ticks w); draws := draws w;
                  console := (console w ++ [Warn (missing_date_warning id_text)])%list |})).
  { unfold bind, lift. rewrite Hid. reflexivity. }
  unfold repair_date. unfold bind at 1. unfold lift at 1.
  destruct Hdate as [Hget|(d & parsed & Hget & Hparsed & Hnan)].
  - exists (missing_date_warning id_text). split; [apply mentions_missing|].
    destruct (ToBoolean t) eqn:Ht; cbv beta iota.
    + rewrite Hget. cbv beta iota. cbn [ToBoolean]. exact Helse.
    + rewrite Ht. exact Helse.
  - destruct (ToBoolean t) eqn:Ht; cbv beta iota.
    + rewrite Hget. cbv beta iota. destruct (ToBoolean d) eqn:Hd.
      * destruct (new_Date_ToString host d parsed Hparsed) as (date_text & Htext).
        exists (invalid_date_warning id_text date_text).
        split; [apply mentions_invalid|].
        unfold bind, lift. rewrite Hparsed, Hnan, Hid.
        cbn [cbind]. rewrite Htext. reflexivity.
      * exists (missing_date_warning id_text). split; [apply mentions_missing|].
        exact Helse.
    + rewrite Ht. exists (missing_date_warning id_text).
      split; [apply mentions_missing | exact Helse].
Qed.

Lemma repair_date_unprintable (host : Host) (props idprops : list (string * value))
      (member : value) (w : World) :
  own_property "id" props = Some (VObject idprops) ->
  own_property "toString" idprops = Some member ->
  date_unusable host (VObject props) ->
  repair_date host (VObject props) w
  = (Throw (TypeError "Cannot convert object to primitive value"), w).
Proof.
  intros Hid Hmember Hdate.
  assert (Htext : cbind (Get (VObject props) "id") (ToString host)
                  = Throw (TypeError "Cannot convert object to primitive value")).
  { rewrite Get_object, Hid. cbn [cbind ToString]. rewrite Hmember. reflexivity. }
  unfold repair_date, bind, lift. cbn [ToBoolean].
  destruct Hdate as [Hget | (d & parsed & Hget & Hparsed & Hnan)]; rewrite Hget.
  - cbn [ToBoolean]. rewrite Htext. reflexivity.
  - destruct (ToBoolean d).
    + rewrite Hparsed, Hnan, Htext. reflexivity.
    + rewrite Htext. reflexivity.
Qed.

Lemma mapM_normalize_throws (host : Host) (E : TransactionTypeEnum) (x : value)
      (elems : list value) :
  In x elems ->
  (forall w, exists e, normalize host E x w = (Throw e, w)) ->
  forall w, exists e w', mapM (normalize host E) elems w = (Throw e, w').
Proof.
  intros Hin Hthrows.
  induction elems as [|y rest IH]; intros w; [destruct Hin|].
  cbn [mapM]. unfold bind at 1.
  destruct (normalize host E y w) as [[r|e] w1] eqn:Hy.
  - destruct Hin as [->|Hin].
    + destruct (Hthrows w) as (e & He). rewrite He in Hy. discriminate.
    + destruct (IH Hin w1) as (e & w' & Hrest).
      exists e, w'. unfold bind. rewrite Hrest. reflexivity.
  - exists e, w1. reflexivity.
Qed.

(** C6, where the code departs from it: the warning is built from [t.id]
    before the current time is taken.  When the id of a record whose date is
    unusable is an object with an own member [toString], building the warning
    throws: the record gets no date and no warning is logged; the exception
    is caught by the handler of the decoding failure, and the collection is
    empty. *)
Theorem date_fallback_unprintable_id (host : Host) (E : TransactionTypeEnum)
        (props idprops : list (string * value)) (member : value)
        (saved : string) (elems : list value) (w : World) :
  own_property "id" props = Some (VObject idprops) ->
  own_property "toString" idprops = Some member ->
  date_unusable host (VObject props) ->
  saved <> "" ->
  JSON_parse host saved = Normal (VArray elems) ->
  In (VObject props) elems ->
  normalize host E (VObject props) w
  = (Throw (TypeError "Cannot convert object to primitive value"), w)
  /\ exists e w1,
       initial_transactions host E (Some saved) w
       = (Normal [],
          {| ticks := ticks w1; draws := draws w1;
             console := (console w1
                           ++ [Error "Failed to parse transactions from localStorage:" e])%list |}).
Proof.
  intros Hid Hmember Hdate Hfull Hparse Hin.
  assert (Hthrows : forall w0,
             normalize host E (VObject props) w0
             = (Throw (TypeError "Cannot convert object to primitive value"), w0)).
  { intros w0. unfold normalize. unfold bind at 1.
    rewrite (repair_date_unprintable host props idprops member w0 Hid Hmember Hdate).
    reflexivity. }
  split; [apply Hthrows|].
  destruct (mapM_normalize_throws host E (VObject props) elems Hin
              (fun w0 => ex_intro _ _ (Hthrows w0)) w) as (e & w1 & Hmap).
  exists e, w1. unfold initial_transactions.
  apply String.eqb_neq in Hfull. rewrite Hfull. cbn [negb].
  unfold try_catch, bind at 1, lift. rewrite Hparse.
  unfold bind at 1. rewrite Hmap. reflexivity.
Qed.

Lemma date_fallback_unprintable_id_witness :
  normalize Reference.host Reference.TransactionType
            Reference.record_with_unprintable_id Reference.start
  = (Throw (TypeError "Cannot convert object to primitive value"), Reference.start)
  /\ exists e w1,
       initial_transactions Reference.host Reference.TransactionType
                            (Some Reference.payload_with_unprintable_id) Reference.start
       = (Normal [],
          {| ticks := ticks w1; draws := draws w1;
             console := (console w1
                           ++ [Error "Failed to parse transactions from localStorage:" e])%list |}).
Proof.
  apply (date_fallback_unprintable_id Reference.host Reference.TransactionType
           [("id", VObject [("toString", VNumber 1)])] [("toString", VNumber 1)]
           (VNumber 1) Reference.payload_with_unprintable_id
           [Reference.record_with_unprintable_id] Reference.start).
  - reflexivity.
  - reflexivity.
  - left. reflexivity.
  - vm_compute. discriminate.
  - vm_compute. reflexivity.
  - left. reflexivity.
Defined.

(** ** Witnesses on the reference host *)

Lemma undecodable_payload_is_empty_witness :
  exists w',
    initial_transactions Reference.host Reference.TransactionType
                         (Some "not-json") Reference.start = (Normal [], w')
    /\ ticks w' = ticks Reference.start /\ draws w' = draws Reference.start
    /\ ("not-json" <> "" ->
        exists d, console w' = (console Reference.start ++ [d])%list).
Proof.
  apply (undecodable_payload_is_empty Reference.host Reference.TransactionType
                                      "not-json" Reference.start).
  left. exists (SyntaxError "Unexpected token in JSON"). vm_compute. reflexivity.
Defined.

Lemma add_then_delete_witness :
  exists added w',
    addTransaction Reference.host salary income_and_expense Reference.start
    = (Normal (income_and_expense ++ [added])%list, w')
    /\ id added = randomUUID Reference.host (draws Reference.start)
    /\ deleteTransaction (id added) (income_and_expense ++ [added])%list
       = income_and_expense.
Proof.
  apply (add_then_delete Reference.host salary income_and_expense Reference.start).
  intros u [<-|[<-|[]]]; vm_compute; discriminate.
Defined.

(** ** Records that normalize *)

Lemma bind_Normal_intro {A B} (m : M A) (k : A -> M B) (w w1 w' : World) (a : A) (b : B) :
  m w = (Normal a, w1) -> k a w1 = (Normal b, w') -> bind m k w = (Normal b, w').
Proof. unfold bind. intros -> Hk. exact Hk. Qed.

Lemma own_property_flat (props : list (string * value)) (k : string) (x : value) :
  flat_record props -> own_property k props = Some x -> scalar x = true.
Proof.
  unfold flat_record. induction props as [|[k' v] rest IH]; intros Hflat Hown.
  - discriminate.
  - inversion Hflat as [|? ? Hv Hrest]; subst. cbn in Hown.
    destruct (own_property k rest) as [y|] eqn:Hy.
    + inversion Hown; subst. apply IH; [exact Hrest | reflexivity].
    + destruct (k' =? k); inversion Hown; subst. exact Hv.
Qed.

Lemma Get_flat (props : list (string * value)) (k : string) :
  flat_record props ->
  exists x, Get (VObject props) k = Normal x /\ scalar x = true.
Proof.
  intros Hflat. rewrite Get_object.
  destruct (own_property k props) as [x|] eqn:Hown.
  - exists x. split; [reflexivity | eapply own_property_flat; eassumption].
  - exists VUndefined. split; reflexivity.
Qed.

Lemma ToString_scalar (host : Host) (v : value) :
  scalar v = true -> exists text, ToString host v = Normal text.
Proof.
  destruct v; intros H; try discriminate; try (eexists; reflexivity).
  destruct b; eexists; reflexivity.
Qed.

Lemma ToNumber_scalar (host : Host) (v : value) :
  scalar v = true -> exists n, ToNumber host v = Normal n.
Proof.
  destruct v; intros H; try discriminate; try (eexists; reflexivity).
  destruct b; eexists; reflexivity.
Qed.

Lemma new_Date_scalar (host : Host) (v : value) :
  scalar v = true -> exists d, new_Date host v = Normal d.
Proof.
  destruct v; intros H; try discriminate; try (eexists; reflexivity).
  destruct b; eexists; reflexivity.
Qed.

Lemma repair_date_flat (host : Host) (props : list (string * value)) (w : World) :
  flat_record props ->
  exists d w1, repair_date host (VObject props) w = (Normal d, w1).
Proof.
  intros Hflat.
  destruct (Get_flat props "date" Hflat) as (x & Hx & Hsx).
  destruct (Get_flat props "id" Hflat) as (i & Hi & Hsi).
  destruct (ToString_scalar host i Hsi) as (id_text & Hid).
  destruct (ToString_scalar host x Hsx) as (date_text & Hdt).
  destruct (new_Date_scalar host x Hsx) as (parsed & Hparsed).
  unfold repair_date, bind, lift. cbn [ToBoolean]. rewrite Hx, Hi.
  destruct (ToBoolean x).
  - rewrite Hparsed. destruct (is_nan (getTime parsed)).
    + cbn [cbind]. rewrite Hid, Hdt. eexists. eexists. reflexivity.
    + eexists. eexists. reflexivity.
  - cbn [cbind]. rewrite Hid. eexists. eexists. reflexivity.
Qed.

(** A record whose members are scalars is normalized: the callback returns. *)
Theorem flat_record_normalizes (host : Host) (E : TransactionTypeEnum)
        (props : list (string * value)) (w : World) :
  flat_record props ->
  exists r w', normalize host E (VObject props) w = (Normal r, w').
Proof.
  intros Hflat.
  destruct (repair_date_flat host props w Hflat) as (d & w1 & Hdate).
  destruct (Get_flat props "id" Hflat) as (i & Hi & Hsi).
  destruct (ToString_scalar host i Hsi) as (id_text & Hid).
  destruct (Get_flat props "description" Hflat) as (ds & Hds & Hsds).
  destruct (ToString_scalar host ds Hsds) as (ds_text & Hdst).
  destruct (Get_flat props "amount" Hflat) as (a & Ha & Hsa).
  destruct (ToNumber_scalar host a Hsa) as (n & Hn).
  assert (Hrid : exists i' w2, repair_id host (VObject props) w1 = (Normal i', w2)).
  { unfold repair_id, bind, lift, crypto_randomUUID. rewrite Hi.
    destruct (ToBoolean i); [rewrite Hid|]; eexists; eexists; reflexivity. }
  destruct Hrid as (i' & w2 & Hrid).
  assert (Hrds : exists t', repair_description host (VObject props) w2 = (Normal t', w2)).
  { unfold repair_description, bind, lift. rewrite Hds.
    destruct (ToBoolean ds); [rewrite Hdst|]; eexists; reflexivity. }
  destruct Hrds as (t' & Hrds).
  assert (Hra : exists n', repair_amount host (VObject props) w2 = (Normal n', w2)).
  { unfold repair_amount, bind, lift. rewrite Ha.
    destruct (ToBoolean a); [rewrite Hn|]; eexists; reflexivity. }
  destruct Hra as (n' & Hra).
  destruct (repair_type_object E props w2) as (ty & Hty).
  eexists. eexists. unfold normalize.
  eapply bind_Normal_intro; [exact Hdate|].
  eapply bind_Normal_intro; [exact Hrid|].
  eapply bind_Normal_intro; [exact Hrds|].
  eapply bind_Normal_intro; [exact Hra|].
  eapply bind_Normal_intro; [exact Hty|].
  reflexivity.
Qed.

Lemma flat_record_normalizes_witness :
  exists r w',
    normalize Reference.host Reference.TransactionType
              Reference.record_with_bad_date Reference.start = (Normal r, w').
Proof.
  apply (flat_record_normalizes Reference.host Reference.TransactionType
           [("id", VString "a"); ("date", VString "not-a-date")] Reference.start).
  repeat constructor.
Defined.

(** ** Arrays whose elements normalize *)

Lemma mapM_length {A B} (f : A -> M B) (l : list A) :
  forall w out w', mapM f l w = (Normal out, w') -> List.length out = List.length l.
Proof.
  induction l as [|x rest IH]; intros w out w' H.
  - inversion H. reflexivity.
  - cbn [mapM] in H.
    apply bind_Normal in H as (y & w1 & _ & H).
    apply bind_Normal in H as (ys & w2 & Hrest & H).
    inversion H; subst. cbn. f_equal. eapply IH. exact Hrest.
Qed.

Lemma filter_not_null (l : list Transaction) : filter not_null l = l.
Proof. induction l as [|t rest IH]; [reflexivity | cbn; f_equal; exact IH]. Qed.

(** When the callback returns for every element of the decoded array, the
    initial collection is the list of the normalized elements: one per input
    element. *)
Theorem array_normalized_elementwise (host : Host) (E : TransactionTypeEnum)
        (saved : string) (elems : list value) (out : list Transaction) (w w' : World) :
  saved <> "" ->
  JSON_parse host saved = Normal (VArray elems) ->
  mapM (normalize host E) elems w = (Normal out, w') ->
  initial_transactions host E (Some saved) w = (Normal out, w')
  /\ List.length out = List.length elems.
Proof.
  intros Hfull Hparse Hmap. split.
  - unfold initial_transactions. apply String.eqb_neq in Hfull. rewrite Hfull.
    cbn [negb]. unfold try_catch, bind at 1, lift. rewrite Hparse.
    unfold bind. rewrite Hmap. unfold ret. rewrite filter_not_null. reflexivity.
  - eapply mapM_length. exact Hmap.
Qed.

Lemma array_normalized_elementwise_witness :
  initial_transactions Reference.host Reference.TransactionType
                       (Some Reference.payload_lowercase) Reference.start
  = (Normal [ {| id := "a"; description := "N/A"; amount := VNumber 50;
                 type := VString "EXPENSE";
                 date := {| getTime := Reference.clock 0 |} |} ],
     {| ticks := 1; draws := 0; console := [Warn (missing_date_warning "a")] |})
  /\ List.length [ {| id := "a"; description := "N/A"; amount := VNumber 50;
                      type := VString "EXPENSE";
                      date := {| getTime := Reference.clock 0 |} |} ]
     = List.length [ VObject [("id", VString "a"); ("amount", VString "50");
                              ("type", VString "income")] ].
Proof.
  apply (array_normalized_elementwise Reference.host Reference.TransactionType
                                      Reference.payload_lowercase).
  - discriminate.
  - vm_compute. reflexivity.
  - vm_compute. reflexivity.
Defined.

(** ** Scenarios of the specification *)

(** The payload [[{"id":"a","amount":"50","type":"income"}]]: with an enum
    whose values are ["INCOME"] and ["EXPENSE"], the normalized record has
    type EXPENSE and amount 50. *)
Example scenario_lowercase_type :
  fst (initial_transactions Reference.host Reference.TransactionType
                            (Some Reference.payload_lowercase) Reference.start)
  = Normal [ {| id := "a"; description := "N/A"; amount := VNumber 50;
                type := VString (EXPENSE Reference.TransactionType);
                date := {| getTime := Reference.clock 0 |} |} ].
Proof. vm_compute. reflexivity. Qed.

(** The empty collection, then [add] of a salary of 1000: income 1000,
    expenses 0, balance 1000. *)
Example scenario_salary :
  exists added w',
    addTransaction Reference.host salary [] Reference.start = (Normal added, w')
    /\ aggregate Reference.TransactionType added
       = {| totalIncome := 1000; totalExpenses := 0; balance := 1000 |}.
Proof. eexists. eexists. split; [reflexivity | vm_compute; reflexivity]. Qed.

(** An income of 1000 and an expense of 200: balance 800. *)
Example scenario_balance :
  balance (aggregate Reference.TransactionType income_and_expense) = 800%float.
Proof. vm_compute. reflexivity. Qed.

(** A transaction whose amount is not a number adds nothing to either
    total. *)
Example scenario_amount_not_a_number :
  aggregate Reference.TransactionType
            ({| id := "x"; description := "text amount"; amount := VString "1000";
                type := VString "INCOME"; date := {| getTime := Reference.clock 0 |} |}
               :: income_and_expense)
  = aggregate Reference.TransactionType income_and_expense.
Proof. vm_compute. reflexivity. Qed.

(** ** Sums that do not round

    Binary64 addition of two integers is exact when they and their sum are
    below [2^53] in absolute value.  The proof goes through the specification
    of the primitive floats: the representation of such an integer is its
    mantissa shifted to 53 bits, and rounding a mantissa that ends in zeros
    only shifts them out. *)

Section ExactSums.

Local Open Scope Z_scope.

(** The number of binary digits of a positive number. *)

Lemma digits2_pos_bounds (p : positive) :
  2 ^ (Zpos (digits2_pos p) - 1) <= Zpos p < 2 ^ Zpos (digits2_pos p).
Proof.
  induction p as [p IH|p IH|]; cbn [digits2_pos]; [| |cbn; lia];
    rewrite Pos2Z.inj_succ;
    replace (Z.succ (Zpos (digits2_pos p)) - 1)
      with (Z.succ (Zpos (digits2_pos p) - 1)) by lia;
    rewrite !Z.pow_succ_r by lia; lia.
Qed.

Lemma digits2_pos_unique (p : positive) (d : Z) :
  2 ^ (d - 1) <= Zpos p < 2 ^ d -> Zpos (digits2_pos p) = d.
Proof.
  intros [Hlo Hhi]. pose proof (digits2_pos_bounds p) as [Hlo' Hhi'].
  assert (Hd : 0 < d).
  { destruct (Z.ltb_spec 0 d) as [|Hle]; [assumption|].
    assert (2 ^ d <= 1); [|lia].
    destruct (Z.eqb_spec d 0) as [->|Hne]; [cbn; lia|].
    rewrite Z.pow_neg_r by lia. lia. }
  destruct (Z.lt_trichotomy (Zpos (digits2_pos p)) d) as [Hlt|[Heq|Hgt]];
    [|assumption|].
  - assert (2 ^ Zpos (digits2_pos p) <= 2 ^ (d - 1))
      by (apply Z.pow_le_mono_r; lia). lia.
  - assert (2 ^ d <= 2 ^ (Zpos (digits2_pos p) - 1))
      by (apply Z.pow_le_mono_r; lia). lia.
Qed.

Lemma digits2_pos_safe (v : positive) :
  Zpos v < 2 ^ 53 -> 1 <= Zpos (digits2_pos v) <= 53.
Proof.
  intros Hv. pose proof (digits2_pos_bounds v) as [Hlo Hhi]. split; [lia|].
  destruct (Z.leb_spec (Zpos (digits2_pos v)) 53) as [|Hgt]; [assumption|].
  assert (2 ^ 53 <= 2 ^ (Zpos (digits2_pos v) - 1))
    by (apply Z.pow_le_mono_r; lia). lia.
Qed.

Lemma scaled_positive (v : positive) (k : Z) :
  0 <= k -> exists u, Zpos v * 2 ^ k = Zpos u.
Proof.
  intros Hk. exists (Z.to_pos (Zpos v * 2 ^ k)).
  rewrite Z2Pos.id; [reflexivity|].
  apply Z.mul_pos_pos; [lia | apply Z.pow_pos_nonneg; lia].
Qed.

Lemma digits2_pos_shift (v : positive) (k : Z) (m : positive) :
  0 <= k -> Zpos m = Zpos v * 2 ^ k ->
  Zpos (digits2_pos m) = Zpos (digits2_pos v) + k.
Proof.
  intros Hk Hm. apply digits2_pos_unique.
  pose proof (digits2_pos_bounds v) as [Hlo Hhi]. rewrite Hm.
  replace (Zpos (digits2_pos v) + k - 1) with ((Zpos (digits2_pos v) - 1) + k) by lia.
  rewrite !Z.pow_add_r by lia.
  assert (0 < 2 ^ k) by (apply Z.pow_pos_nonneg; lia). nia.
Qed.

(** Shifting left and right. *)

Lemma iter_xO (d m : positive) : Zpos (Pos.iter xO m d) = Zpos m * 2 ^ Zpos d.
Proof.
  revert m. induction d as [|d IH] using Pos.peano_ind; intros m.
  - cbn. lia.
  - rewrite Pos.iter_succ, Pos2Z.inj_succ, Z.pow_succ_r by lia.
    rewrite Pos2Z.inj_xO, IH. lia.
Qed.

Lemma iter_pos_nat {A} (f : A -> A) (p : positive) (x : A) :
  iter_pos f p x = Nat.iter (Pos.to_nat p) f x.
Proof.
  revert x. induction p as [p IH|p IH|]; intros x; cbn [iter_pos].
  - rewrite !IH, Pos2Nat.inj_xI. set (n := Pos.to_nat p).
    replace (S (2 * n))%nat with (n + S n)%nat by lia.
    rewrite Nat.iter_add, Nat.iter_succ_r. reflexivity.
  - rewrite !IH, Pos2Nat.inj_xO. set (n := Pos.to_nat p).
    replace (2 * n)%nat with (n + n)%nat by lia.
    rewrite Nat.iter_add. reflexivity.
  - reflexivity.
Qed.

Lemma shr_exact_nat (n : nat) (u : positive) (m : Z) :
  m = Zpos u * 2 ^ Z.of_nat n ->
  Nat.iter n shr_1 {| shr_m := m; shr_r := false; shr_s := false |}
  = {| shr_m := Zpos u; shr_r := false; shr_s := false |}.
Proof.
  revert m. induction n as [|n IH]; intros m Hm.
  - change (Z.of_nat 0) with 0 in Hm. rewrite Z.pow_0_r, Z.mul_1_r in Hm.
    subst. reflexivity.
  - rewrite Nat.iter_succ_r.
    destruct (scaled_positive u (Z.of_nat n)) as (q & Hq); [lia|].
    assert (Hm' : m = Zpos (xO q)).
    { rewrite Pos2Z.inj_xO, <- Hq, Hm, Nat2Z.inj_succ, Z.pow_succ_r by lia. lia. }
    rewrite Hm'. cbn [shr_1 orb]. apply IH. symmetry. exact Hq.
Qed.

Lemma shl_align_value (m : positive) (e e' : Z) :
  e' <= e -> Zpos (fst (shl_align m e e')) = Zpos m * 2 ^ (e - e').
Proof.
  intros He. unfold shl_align. destruct (e' - e) as [|p|p] eqn:Hp.
  - cbn [fst]. replace (e - e') with 0 by lia. lia.
  - lia.
  - cbn [fst]. rewrite iter_xO. f_equal. f_equal. lia.
Qed.

(** Rounding a mantissa of 53 bits changes nothing; rounding one that is a
    53-bit mantissa followed by zeros drops the zeros. *)

Lemma fexp_small (d : Z) : 1 <= d <= 53 -> fexp prec emax d = d - 53.
Proof.
  intros H. change (fexp prec emax d) with (Z.max (d - 53) (-1074)). lia.
Qed.

Lemma shr_fexp_canonical (m : positive) (e : Z) :
  Zpos (digits2_pos m) = 53 -> -52 <= e <= 0 ->
  shr_fexp prec emax (Zpos m) e loc_Exact
  = ({| shr_m := Zpos m; shr_r := false; shr_s := false |}, e).
Proof.
  intros Hd He. unfold shr_fexp. cbn [Zdigits2 shr_record_of_loc]. rewrite Hd.
  rewrite fexp_small by lia. replace (53 + e - 53 - e) with 0 by lia. reflexivity.
Qed.

Lemma round_aux_canonical (s : bool) (m : positive) (e : Z) :
  Zpos (digits2_pos m) = 53 -> -52 <= e <= 0 ->
  binary_round_aux prec emax s (Zpos m) e loc_Exact = S754_finite s m e.
Proof.
  intros Hd He. unfold binary_round_aux.
  rewrite (shr_fexp_canonical m e Hd He).
  cbn [shr_m loc_of_shr_record round_nearest_even].
  rewrite (shr_fexp_canonical m e Hd He). cbn [shr_m].
  change (emax - prec) with 971. destruct (Z.leb_spec e 971); [reflexivity | lia].
Qed.

Lemma shr_fexp_exact (v m : positive) (k : Z) :
  Zpos v < 2 ^ 53 -> 0 <= k -> Zpos m = Zpos v * 2 ^ k ->
  53 - Zpos (digits2_pos v) <= k ->
  shr_fexp prec emax (Zpos m) (- k) loc_Exact
  = ({| shr_m := Zpos v * 2 ^ (53 - Zpos (digits2_pos v));
        shr_r := false; shr_s := false |},
     Zpos (digits2_pos v) - 53).
Proof.
  intros Hv Hk Hm Ht. pose proof (digits2_pos_safe v Hv) as Hd.
  unfold shr_fexp. cbn [Zdigits2 shr_record_of_loc].
  rewrite (digits2_pos_shift v k m Hk Hm).
  replace (Zpos (digits2_pos v) + k + - k) with (Zpos (digits2_pos v)) by lia.
  rewrite fexp_small by exact Hd.
  set (d := Zpos (digits2_pos v)) in *.
  destruct (d - 53 - - k) as [|p|p] eqn:Hp; [| |lia].
  - cbn [shr]. f_equal; [|lia]. f_equal. rewrite Hm. f_equal. f_equal. lia.
  - cbn [shr]. f_equal; [|lia]. rewrite iter_pos_nat.
    destruct (scaled_positive v (53 - d)) as (u & Hu); [lia|].
    rewrite Hu. apply shr_exact_nat.
    rewrite positive_nat_Z, <- Hp, <- Hu, Hm, <- Z.mul_assoc, <- Z.pow_add_r by lia.
    f_equal. f_equal. lia.
Qed.

Lemma canon_value (s : bool) (v : positive) :
  Zpos v < 2 ^ 53 ->
  exists m, Float64.canon s v = S754_finite s m (Zpos (digits2_pos v) - 53)
            /\ Zpos m = Zpos v * 2 ^ (53 - Zpos (digits2_pos v))
            /\ Zpos (digits2_pos m) = 53
            /\ 1 <= Zpos (digits2_pos v) <= 53.
Proof.
  intros Hv. pose proof (digits2_pos_safe v Hv) as Hd.
  destruct (scaled_positive v (53 - Zpos (digits2_pos v))) as (u & Hu); [lia|].
  exists u. split; [unfold Float64.canon; rewrite Hu; reflexivity|].
  split; [symmetry; exact Hu|]. split; [|exact Hd].
  rewrite (digits2_pos_shift v (53 - Zpos (digits2_pos v)) u);
    [lia | lia | symmetry; exact Hu].
Qed.

Lemma binary_round_exact (s : bool) (v m : positive) (k : Z) :
  Zpos v < 2 ^ 53 -> 0 <= k -> Zpos m = Zpos v * 2 ^ k ->
  binary_round prec emax s m (- k) = Float64.canon s v.
Proof.
  intros Hv Hk Hm.
  destruct (canon_value s v Hv) as (u & -> & Hu & Hdu & Hd).
  unfold binary_round. rewrite (digits2_pos_shift v k m Hk Hm).
  replace (Zpos (digits2_pos v) + k + - k) with (Zpos (digits2_pos v)) by lia.
  rewrite fexp_small by exact Hd.
  set (d := Zpos (digits2_pos v)) in *. unfold shl_align.
  destruct (d - 53 - - k) as [|p|p] eqn:Hp.
  - (* the mantissa has 53 bits already *)
    assert (m = u) by (apply Pos2Z.inj; rewrite Hm, Hu; f_equal; f_equal; lia).
    subst m. replace (- k) with (d - 53) by lia.
    apply round_aux_canonical; [exact Hdu | lia].
  - (* it ends in zeros, which are shifted out *)
    pose proof (round_aux_canonical s u (d - 53) Hdu ltac:(lia)) as Hr.
    unfold binary_round_aux in *.
    rewrite (shr_fexp_exact v m k Hv Hk Hm) by (fold d; lia).
    fold d. rewrite <- Hu.
    rewrite (shr_fexp_canonical u (d - 53) Hdu) in Hr by lia.
    exact Hr.
  - (* it is shorter, and is shifted left *)
    assert (Hmz : Pos.iter xO m p = u).
    { apply Pos2Z.inj.
      rewrite iter_xO, Hm, Hu, <- Z.mul_assoc, <- Z.pow_add_r by lia.
      f_equal. f_equal. lia. }
    rewrite Hmz. apply round_aux_canonical; [exact Hdu | lia].
Qed.

Lemma binary_normalize_exact (z k : Z) :
  Z.abs z < 2 ^ 53 -> 0 <= k ->
  binary_normalize prec emax (z * 2 ^ k) (- k) false = Float64.repr z.
Proof.
  intros Hz Hk. assert (Hpow : 0 < 2 ^ k) by (apply Z.pow_pos_nonneg; lia).
  destruct z as [|v|v]; cbn [Float64.repr].
  - reflexivity.
  - destruct (Zpos v * 2 ^ k) as [|m|m] eqn:Hm; try lia.
    cbn [binary_normalize]. apply binary_round_exact; [lia | lia | symmetry; exact Hm].
  - destruct (Zneg v * 2 ^ k) as [|m|m] eqn:Hm; try lia.
    cbn [binary_normalize]. apply binary_round_exact; [lia | lia | lia].
Qed.

Lemma repr_valid (z : Z) :
  Z.abs z < 2 ^ 53 -> valid_binary (Float64.repr z) = true.
Proof.
  intros Hz.
  assert (H : forall s v, Zpos v < 2 ^ 53 -> valid_binary (Float64.canon s v) = true).
  { intros s v Hv. destruct (canon_value s v Hv) as (u & -> & Hu & Hdu & Hd).
    unfold valid_binary. cbn [SpecFloat.valid_binary].
    unfold bounded, canonical_mantissa. rewrite Hdu.
    replace (53 + (Zpos (digits2_pos v) - 53)) with (Zpos (digits2_pos v)) by lia.
    rewrite fexp_small by exact Hd. rewrite Z.eqb_refl. cbn [andb].
    change (emax - prec) with 971. apply Z.leb_le. lia. }
  destruct z; cbn [Float64.repr]; [reflexivity | apply H; lia | apply H; lia].
Qed.

(** Addition. *)

Lemma SFadd_finite_exact (sa sb : bool) (a b : positive) :
  Zpos a < 2 ^ 53 -> Zpos b < 2 ^ 53 ->
  Z.abs (cond_Zopp sa (Zpos a) + cond_Zopp sb (Zpos b)) < 2 ^ 53 ->
  SF64add (Float64.canon sa a) (Float64.canon sb b)
  = Float64.repr (cond_Zopp sa (Zpos a) + cond_Zopp sb (Zpos b)).
Proof.
  intros Ha Hb Hsum.
  destruct (canon_value sa a Ha) as (ma & -> & Hma & _ & Hda).
  destruct (canon_value sb b Hb) as (mb & -> & Hmb & _ & Hdb).
  set (ea := Zpos (digits2_pos a) - 53) in *.
  set (eb := Zpos (digits2_pos b) - 53) in *.
  unfold SF64add, SFadd. set (ez := Z.min ea eb).
  rewrite !shl_align_value by lia. rewrite Hma, Hmb.
  assert (Hva : Zpos a * 2 ^ (53 - Zpos (digits2_pos a)) * 2 ^ (ea - ez)
                = Zpos a * 2 ^ (- ez)).
  { rewrite <- Z.mul_assoc, <- Z.pow_add_r by lia. f_equal. f_equal. lia. }
  assert (Hvb : Zpos b * 2 ^ (53 - Zpos (digits2_pos b)) * 2 ^ (eb - ez)
                = Zpos b * 2 ^ (- ez)).
  { rewrite <- Z.mul_assoc, <- Z.pow_add_r by lia. f_equal. f_equal. lia. }
  rewrite Hva, Hvb.
  replace (cond_Zopp sa (Zpos a * 2 ^ (- ez)) + cond_Zopp sb (Zpos b * 2 ^ (- ez)))
    with ((cond_Zopp sa (Zpos a) + cond_Zopp sb (Zpos b)) * 2 ^ (- ez))
    by (destruct sa, sb; cbn [cond_Zopp]; lia).
  replace ez with (- (- ez)) at 2 by lia.
  apply binary_normalize_exact; [exact Hsum | lia].
Qed.

Lemma SFadd_exact (a b : Z) :
  Z.abs a < 2 ^ 53 -> Z.abs b < 2 ^ 53 -> Z.abs (a + b) < 2 ^ 53 ->
  SF64add (Float64.repr a) (Float64.repr b) = Float64.repr (a + b).
Proof.
  intros Ha Hb Hab.
  destruct a as [|a|a], b as [|b|b]; try reflexivity.
  - apply (SFadd_finite_exact false false a b); cbn [cond_Zopp]; lia.
  - apply (SFadd_finite_exact false true a b); cbn [cond_Zopp]; lia.
  - apply (SFadd_finite_exact true false a b); cbn [cond_Zopp]; lia.
  - apply (SFadd_finite_exact true true a b); cbn [cond_Zopp]; lia.
Qed.

Lemma of_Z_repr (z : Z) : Z.abs z < 2 ^ 53 -> Prim2SF (Float64.of_Z z) = Float64.repr z.
Proof.
  intros Hz. unfold Float64.of_Z.
  assert (H : binary_normalize prec emax z 0 false = Float64.repr z).
  { pose proof (binary_normalize_exact z 0 Hz ltac:(lia)) as H.
    rewrite Z.pow_0_r, Z.mul_1_r in H. exact H. }
  rewrite H. apply Prim2SF_SF2Prim. apply repr_valid. exact Hz.
Qed.

Lemma add_exact (a b : Z) :
  Z.abs a < 2 ^ 53 -> Z.abs b < 2 ^ 53 -> Z.abs (a + b) < 2 ^ 53 ->
  (Float64.of_Z a + Float64.of_Z b)%float = Float64.of_Z (a + b).
Proof.
  intros Ha Hb Hab. apply Prim2SF_inj.
  rewrite add_spec, !of_Z_repr by assumption. apply SFadd_exact; assumption.
Qed.

Lemma magnitude_nonneg (amounts : list float) : 0 <= magnitude amounts.
Proof.
  induction amounts as [|a rest IH]; cbn [magnitude fold_right]; [lia|].
  fold (magnitude rest). lia.
Qed.

(** Adding the negative zero to an integer leaves it as it is: the sum of
    the two zeros is the positive one. *)
Lemma add_neg_zero (a : Z) :
  Z.abs a < 2 ^ 53 -> (Float64.of_Z a + neg_zero)%float = Float64.of_Z a.
Proof.
  intros Ha. apply Prim2SF_inj. rewrite add_spec, of_Z_repr by exact Ha.
  change (Prim2SF neg_zero) with (S754_zero true).
  destruct a as [|v|v]; cbn [Float64.repr].
  - reflexivity.
  - destruct (canon_value false v ltac:(lia)) as (m & -> & _). reflexivity.
  - destruct (canon_value true v ltac:(lia)) as (m & -> & _). reflexivity.
Qed.

Lemma truncate_neg_zero : Float64.truncate neg_zero = 0.
Proof. reflexivity. Qed.

Lemma sum_exact (amounts : list float) :
  Forall is_integer amounts ->
  forall acc, Z.abs acc + magnitude amounts < 2 ^ 53 ->
  fold_left PrimFloat.add amounts (Float64.of_Z acc)
  = Float64.of_Z (acc + integer_total amounts).
Proof.
  induction 1 as [|a rest Ha Hrest IH]; intros acc Hbound.
  - cbn. f_equal. lia.
  - cbn [fold_left magnitude integer_total fold_right] in *.
    fold (magnitude rest) in *. fold (integer_total rest) in *.
    pose proof (magnitude_nonneg rest).
    destruct Ha as [Ha | ->].
    + set (z := Float64.truncate a) in *.
      rewrite Ha, add_exact by lia.
      rewrite IH by lia. f_equal. lia.
    + rewrite truncate_neg_zero in *.
      rewrite add_neg_zero by lia.
      rewrite IH by lia. f_equal; lia.
Qed.

Lemma sum_integers (amounts : list float) :
  Forall is_integer amounts -> magnitude amounts < 2 ^ 53 ->
  sum amounts = Float64.of_Z (integer_total amounts).
Proof.
  intros Hint Hmag. unfold sum. change zero with (Float64.of_Z 0).
  rewrite sum_exact; [reflexivity | exact Hint | lia].
Qed.

Lemma magnitude_Permutation (l l' : list float) :
  Permutation l l' -> magnitude l = magnitude l'.
Proof.
  unfold magnitude. induction 1 as [|a l l' _ IH|a b l|l l' l'' _ IH1 _ IH2];
    cbn [fold_right]; lia.
Qed.

Lemma integer_total_Permutation (l l' : list float) :
  Permutation l l' -> integer_total l = integer_total l'.
Proof.
  unfold integer_total. induction 1 as [|a l l' _ IH|a b l|l l' l'' _ IH1 _ IH2];
    cbn [fold_right]; lia.
Qed.

Lemma numeric_amounts_Permutation (p : Transaction -> bool) (l l' : list Transaction) :
  Permutation l l' -> Permutation (numeric_amounts p l) (numeric_amounts p l').
Proof. intros H. unfold numeric_amounts. apply Permutation_flat_map. exact H. Qed.

Lemma numeric_amounts_integer (p : Transaction -> bool) (l : list Transaction) :
  Forall is_integer (numeric_amounts (fun _ => true) l) ->
  Forall is_integer (numeric_amounts p l).
Proof.
  induction l as [|t rest IH]; intros H; [constructor|].
  cbn [numeric_amounts flat_map] in *.
  destruct (amount t); try (apply IH; exact H).
  cbn [app] in H. inversion H; subst. destruct (p t); cbn [app]; [constructor|]; auto.
Qed.

Lemma magnitude_cons (a : float) (rest : list float) :
  magnitude (a :: rest) = Z.abs (Float64.truncate a) + magnitude rest.
Proof. reflexivity. Qed.

Lemma numeric_amounts_magnitude (p : Transaction -> bool) (l : list Transaction) :
  magnitude (numeric_amounts p l) <= magnitude (numeric_amounts (fun _ => true) l).
Proof.
  induction l as [|t rest IH]; [cbn; lia|].
  cbn [numeric_amounts flat_map].
  fold (numeric_amounts p rest). fold (numeric_amounts (fun _ => true) rest).
  destruct (amount t); try exact IH.
  destruct (p t); cbn [app]; rewrite ?magnitude_cons; lia.
Qed.

Lemma safe_totals (E : TransactionTypeEnum) (l : list Transaction) :
  safe_integer_amounts l ->
  totalIncome (aggregate E l)
  = Float64.of_Z (integer_total (numeric_amounts (is_income E) l))
  /\ totalExpenses (aggregate E l)
     = Float64.of_Z (integer_total (numeric_amounts (fun t => negb (is_income E t)) l)).
Proof.
  intros [Hint Hmag].
  unfold aggregate. rewrite fold_accumulate. cbn [totalIncome totalExpenses].
  split; apply sum_integers; try (apply numeric_amounts_integer; exact Hint).
  - pose proof (numeric_amounts_magnitude (is_income E) l). lia.
  - pose proof (numeric_amounts_magnitude (fun t => negb (is_income E t)) l). lia.
Qed.

End ExactSums.

(** ** Order of the collection *)

Lemma three_incomes_totals (E : TransactionTypeEnum) :
  Prim2SF (totalIncome (aggregate E (three_incomes E)))
  <> Prim2SF (totalIncome (aggregate E (three_incomes_reversed E))).
Proof.
  unfold aggregate. rewrite !fold_accumulate.
  unfold three_incomes_reversed, three_incomes, numeric_amounts, is_income, income_of.
  cbn [rev app flat_map amount type strict_equals_string].
  rewrite String.eqb_refl. cbn [negb app].
  vm_compute. discriminate.
Qed.

Lemma three_incomes_balance (E : TransactionTypeEnum) :
  Prim2SF (balance (aggregate E (three_incomes E)))
  <> Prim2SF (balance (aggregate E (three_incomes_reversed E))).
Proof.
  unfold aggregate. rewrite !fold_accumulate.
  unfold three_incomes_reversed, three_incomes, numeric_amounts, is_income, income_of.
  cbn [rev app flat_map amount type strict_equals_string].
  rewrite String.eqb_refl. cbn [negb app].
  vm_compute. discriminate.
Qed.

(** C9 as stated fails, whatever the values of the enum: the incomes 0.1,
    0.2, 0.3 add up to 0.6000000000000001 in that order and to 0.6 in the
    opposite order, every addition rounding to the nearest binary64 value. *)
Lemma aggregate_order_counterexample :
  (forall E, Permutation (three_incomes E) (three_incomes_reversed E))
  /\ (forall E, totalIncome (aggregate E (three_incomes E))
                <> totalIncome (aggregate E (three_incomes_reversed E)))
  /\ (forall E, balance (aggregate E (three_incomes E))
                <> balance (aggregate E (three_incomes_reversed E))).
Proof.
  split; [intros E; apply Permutation_rev|].
  split; intros E H; apply (f_equal Prim2SF) in H.
  - exact (three_incomes_totals E H).
  - exact (three_incomes_balance E H).
Qed.

Lemma aggregate_same_order (E : TransactionTypeEnum) (l l' : list Transaction) :
  same_order_within_kinds E l l' -> aggregate E l = aggregate E l'.
Proof.
  intros [Hincome Hexpenses]. unfold aggregate.
  rewrite !fold_accumulate, Hincome, Hexpenses. reflexivity.
Qed.

Lemma safe_integer_amounts_Permutation (l l' : list Transaction) :
  Permutation l l' -> safe_integer_amounts l -> safe_integer_amounts l'.
Proof.
  intros Hperm [Hint Hmag].
  pose proof (numeric_amounts_Permutation (fun _ => true) l l' Hperm) as Hp.
  split.
  - eapply Permutation_Forall; eassumption.
  - rewrite <- (magnitude_Permutation _ _ Hp). exact Hmag.
Qed.

Lemma aggregate_safe_integers (E : TransactionTypeEnum) (l l' : list Transaction) :
  Permutation l l' -> safe_integer_amounts l -> aggregate E l = aggregate E l'.
Proof.
  intros Hperm Hsafe.
  pose proof (safe_integer_amounts_Permutation l l' Hperm Hsafe) as Hsafe'.
  destruct (safe_totals E l Hsafe) as [Hi He].
  destruct (safe_totals E l' Hsafe') as [Hi' He'].
  rewrite (integer_total_Permutation _ _
             (numeric_amounts_Permutation (is_income E) l l' Hperm)) in Hi.
  rewrite (integer_total_Permutation _ _
             (numeric_amounts_Permutation (fun t => negb (is_income E t)) l l' Hperm)) in He.
  revert Hi He Hi' He'. unfold aggregate.
  destruct (fold_left (accumulate E) l (zero, zero)) as [income expenses].
  destruct (fold_left (accumulate E) l' (zero, zero)) as [income' expenses'].
  cbn [totalIncome totalExpenses]. intros -> -> -> ->. reflexivity.
Qed.

(** C9, amended: a permutation of the collection leaves [totalIncome],
    [totalExpenses] and [balance] unchanged when no addition rounds, every
    numeric amount being an integer and their absolute values adding up to
    less than [2^53], and, whatever the amounts, when it keeps the numeric
    incomes in their order and the other numeric amounts in theirs. *)
Theorem aggregate_order_independent (E : TransactionTypeEnum)
        (l l' : list Transaction) :
  Permutation l l' ->
  safe_integer_amounts l \/ same_order_within_kinds E l l' ->
  totalIncome (aggregate E l) = totalIncome (aggregate E l')
  /\ totalExpenses (aggregate E l) = totalExpenses (aggregate E l')
  /\ balance (aggregate E l) = balance (aggregate E l').
Proof.
  intros Hperm [Hsafe|Hsame].
  - rewrite (aggregate_safe_integers E l l' Hperm Hsafe). repeat split.
  - rewrite (aggregate_same_order E l l' Hsame). repeat split.
Qed.

Lemma aggregate_order_independent_witness :
  totalIncome (aggregate Reference.TransactionType integer_ledger)
  = totalIncome (aggregate Reference.TransactionType integer_ledger_reversed)
  /\ totalExpenses (aggregate Reference.TransactionType integer_ledger)
     = totalExpenses (aggregate Reference.TransactionType integer_ledger_reversed)
  /\ balance (aggregate Reference.TransactionType integer_ledger)
     = balance (aggregate Reference.TransactionType integer_ledger_reversed).
Proof.
  apply (aggregate_order_independent Reference.TransactionType
                                     integer_ledger integer_ledger_reversed).
  - apply Permutation_rev.
  - left. split.
    + repeat constructor; vm_compute; reflexivity.
    + vm_compute. reflexivity.
Defined.

(** The interleaving of incomes and expenses does not matter, whatever the
    amounts. *)
Example mixed_ledger_totals :
  aggregate Reference.TransactionType mixed_ledger
  = aggregate Reference.TransactionType mixed_ledger_moved.
Proof. apply aggregate_same_order. split; reflexivity. Qed.

Lemma repair_amount_falsy_witness :
  repair_amount Reference.host (VObject [("amount", VString "")]) Reference.start
  = (Normal zero, Reference.start).
Proof.
  apply (repair_amount_falsy Reference.host (VObject [("amount", VString "")]) (VString "")).
  - reflexivity.
  - reflexivity.
Defined.

(** On safe integers the totals are the integer sums. *)
Theorem safe_integer_totals_exact (E : TransactionTypeEnum) (l : list Transaction) :
  safe_integer_amounts l ->
  totalIncome (aggregate E l)
  = Float64.of_Z (integer_total (numeric_amounts (is_income E) l))
  /\ totalExpenses (aggregate E l)
     = Float64.of_Z (integer_total (numeric_amounts (fun t => negb (is_income E t)) l)).
Proof. exact (safe_totals E l). Qed.

Lemma safe_integer_totals_exact_witness :
  totalIncome (aggregate Reference.TransactionType integer_ledger)
  = Float64.of_Z (integer_total
                    (numeric_amounts (is_income Reference.TransactionType) integer_ledger))
  /\ totalExpenses (aggregate Reference.TransactionType integer_ledger)
     = Float64.of_Z (integer_total
                       (numeric_amounts
                          (fun t => negb (is_income Reference.TransactionType t))
                          integer_ledger)).
Proof.
  apply (safe_integer_totals_exact Reference.TransactionType integer_ledger).
  split.
  - repeat constructor; vm_compute; reflexivity.
  - vm_compute. reflexivity.
Defined.

(** * The component beyond the initializer's repairs *)

(** ** The callback, step by step *)

Lemma normalize_steps (host : Host) (E : TransactionTypeEnum) (t : value)
      (w w' : World) (r : Transaction) :
  normalize host E t w = (Normal r, w') ->
  exists w1 n,
    repair_date host t w = (Normal (date r), w1)
    /\ repair_id host t w1 = (Normal (id r), w')
    /\ repair_description host t w' = (Normal (description r), w')
    /\ repair_amount host t w' = (Normal n, w')
    /\ amount r = VNumber n
    /\ repair_type E t w' = (Normal (type r), w').
Proof.
  intros Hnorm. unfold normalize in Hnorm.
  apply bind_Normal in Hnorm as (d & w1 & Hdate & Hnorm).
  apply bind_Normal in Hnorm as (i & w2 & Hid & Hnorm).
  apply bind_Normal in Hnorm as (ds & w3 & Hdesc & Hnorm).
  apply bind_Normal in Hnorm as (a & w4 & Hamount & Hnorm).
  apply bind_Normal in Hnorm as (ty & w5 & Htype & Hnorm).
  pose proof (lifted_world _ _ _ _ _ Hdesc) as H3.
  pose proof (lifted_world _ _ _ _ _ Hamount) as H4.
  pose proof (repair_type_world _ _ _ _ _ Htype) as H5.
  subst w5 w4 w3. unfold ret in Hnorm. inversion Hnorm; subst.
  exists w1, a. cbn [date id description amount type]. repeat split; assumption.
Qed.

(** The date step never draws a UUID, and it reads the clock exactly when it
    logs a warning. *)
Lemma repair_date_effects (host : Host) (t : value) (w w1 : World) (d : Date) :
  repair_date host t w = (Normal d, w1) ->
  draws w1 = draws w
  /\ ((w1 = w)
      \/ (exists msg, w1 = {| ticks := S (ticks w); draws := draws w;
                              console := (console w ++ [Warn msg])%list |}
                      /\ d = {| getTime := clock host (ticks w) |})).
Proof.
  unfold repair_date, bind, lift, console_warn, new_Date_now, ret.
  destruct (if ToBoolean t then Get t "date" else Normal t) as [has_date|e];
    [|discriminate].
  destruct (ToBoolean has_date).
  - destruct (Get t "date") as [t_date|e]; [|discriminate].
    destruct (new_Date host t_date) as [parsed|e]; [|discriminate].
    destruct (is_nan (getTime parsed)).
    + destruct (cbind (Get t "id") (ToString host)) as [id_text|e]; [|discriminate].
      destruct (cbind (Normal t_date) (ToString host)) as [date_text|e]; [|discriminate].
      intros H. inversion H; subst. split; [reflexivity|]. right. eexists. split; reflexivity.
    + intros H. inversion H; subst. split; [reflexivity|]. left. reflexivity.
  - destruct (cbind (Get t "id") (ToString host)) as [id_text|e]; [|discriminate].
    intros H. inversion H; subst. split; [reflexivity|]. right. eexists. split; reflexivity.
Qed.

(** ** The date, the id and the description of a normalized record *)

(** A stored date that [new Date] reads as a valid date is the date of the
    normalized record; nothing is logged and the clock is not read. *)
Theorem stored_date_kept (host : Host) (E : TransactionTypeEnum) (t d : value)
        (parsed : Date) (w w' : World) (r : Transaction) :
  normalize host E t w = (Normal r, w') ->
  ToBoolean t = true ->
  Get t "date" = Normal d ->
  ToBoolean d = true ->
  new_Date host d = Normal parsed ->
  is_nan (getTime parsed) = false ->
  date r = parsed /\ console w' = console w /\ ticks w' = ticks w.
Proof.
  intros Hnorm Ht Hget Hd Hparsed Hvalid.
  destruct (normalize_steps host E t w w' r Hnorm) as (w1 & n & Hdate & Hid & _).
  unfold repair_date, bind, lift in Hdate.
  rewrite Ht, Hget, Hd, Hparsed, Hvalid in Hdate. unfold ret in Hdate.
  inversion Hdate as [[Hparsed' Hworld]]. subst w1.
  destruct (repair_id_console host t w w' (id r) Hid) as [Hconsole Hticks].
  split; [congruence | split; assumption].
Qed.

(** What normalizing one record does to the world: at most one UUID is
    drawn, and it is then the id of the record; at most one warning is logged
    and the clock read once, and the date is then the clock's reading. *)
Theorem normalize_effects (host : Host) (E : TransactionTypeEnum) (t : value)
        (w w' : World) (r : Transaction) :
  normalize host E t w = (Normal r, w') ->
  (draws w' = draws w \/ (draws w' = S (draws w) /\ id r = randomUUID host (draws w)))
  /\ ((console w' = console w /\ ticks w' = ticks w)
      \/ (exists msg, console w' = (console w ++ [Warn msg])%list
                      /\ ticks w' = S (ticks w)
                      /\ date r = {| getTime := clock host (ticks w) |})).
Proof.
  intros Hnorm.
  destruct (normalize_steps host E t w w' r Hnorm) as (w1 & n & Hdate & Hid & _).
  destruct (repair_date_effects host t w w1 (date r) Hdate) as [Hdraws Hlog].
  destruct (repair_id_console host t w1 w' (id r) Hid) as [Hconsole Hticks].
  split.
  - revert Hid. unfold repair_id, bind, lift, crypto_randomUUID.
    destruct (Get t "id") as [t_id|e]; [|discriminate].
    destruct (ToBoolean t_id).
    + destruct (ToString host t_id); intros H; inversion H; subst.
      left. exact Hdraws.
    + cbn. intros H. inversion H; subst. right. cbn [draws]. rewrite Hdraws.
      split; reflexivity.
  - destruct Hlog as [->|(msg & -> & Hd)].
    + left. split; assumption.
    + right. exists msg. rewrite Hconsole, Hticks. repeat split. exact Hd.
Qed.

Lemma repair_date_draws (host : Host) (t : value) (w w1 : World) (d : Date) :
  repair_date host t w = (Normal d, w1) -> draws w1 = draws w.
Proof. intros H. apply (repair_date_effects host t w w1 d H). Qed.

(** The id of a normalized record is the string form of the stored id when
    that is truthy, and a UUID drawn for it otherwise. *)
Theorem normalize_id (host : Host) (E : TransactionTypeEnum) (t : value)
        (w w' : World) (r : Transaction) :
  normalize host E t w = (Normal r, w') ->
  exists stored,
    Get t "id" = Normal stored
    /\ if ToBoolean stored
       then ToString host stored = Normal (id r) /\ draws w' = draws w
       else id r = randomUUID host (draws w) /\ draws w' = S (draws w).
Proof.
  intros Hnorm.
  destruct (normalize_steps host E t w w' r Hnorm) as (w1 & n & Hdate & Hid & _).
  pose proof (repair_date_draws host t w w1 (date r) Hdate) as Hdraws.
  unfold repair_id, bind, lift, crypto_randomUUID in Hid.
  destruct (Get t "id") as [stored|e]; [|discriminate].
  exists stored. split; [reflexivity|].
  destruct (ToBoolean stored).
  - destruct (ToString host stored) as [text|e]; inversion Hid; subst.
    split; [reflexivity | exact Hdraws].
  - cbn in Hid. inversion Hid; subst. cbn [draws]. rewrite Hdraws.
    split; reflexivity.
Qed.

(** The description of a normalized record is the string form of the stored
    one when that is truthy, and [N/A] otherwise. *)
Theorem normalize_description (host : Host) (E : TransactionTypeEnum) (t : value)
        (w w' : World) (r : Transaction) :
  normalize host E t w = (Normal r, w') ->
  exists stored,
    Get t "description" = Normal stored
    /\ if ToBoolean stored
       then ToString host stored = Normal (description r)
       else description r = "N/A".
Proof.
  intros Hnorm.
  destruct (normalize_steps host E t w w' r Hnorm)
    as (w1 & n & _ & _ & Hdescription & _).
  unfold repair_description, bind, lift in Hdescription.
  destruct (Get t "description") as [stored|e]; [|discriminate].
  exists stored. split; [reflexivity|].
  destruct (ToBoolean stored).
  - destruct (ToString host stored) as [text|e]; inversion Hdescription.
    reflexivity.
  - cbn in Hdescription. inversion Hdescription. reflexivity.
Qed.

(** ** Reading back what was written *)

Lemma nonempty_truthy (s : string) : s <> "" -> ToBoolean (VString s) = true.
Proof.
  intros Hs. cbn [ToBoolean]. destruct (String.eqb_spec s ""); [contradiction | reflexivity].
Qed.

Lemma represented_date (host : Host) (S : Serializer) (E : TransactionTypeEnum)
      (props : list (string * value)) (t : Transaction) (w : World) :
  own_property "date" props = Some (VString (toISOString S (getTime (date t)))) ->
  persistable host S E t ->
  repair_date host (VObject props) w = (Normal (date t), w).
Proof.
  intros Hdate (_ & _ & _ & _ & Hiso & Hparse & Hvalid).
  unfold repair_date, bind, lift. cbn [ToBoolean].
  rewrite Get_object, Hdate, (nonempty_truthy _ Hiso).
  cbn [new_Date ToPrimitive cbind getTime]. rewrite Hparse, Hvalid.
  unfold ret. destruct (date t); reflexivity.
Qed.

Lemma represented_normalizes (host : Host) (S : Serializer) (E : TransactionTypeEnum)
      (v : value) (t : Transaction) (w : World) :
  represents S v t -> persistable host S E t ->
  normalize host E v w = (Normal t, w).
Proof.
  intros (props & -> & Hid & Hdesc & Hamount & Htype & Hdate) Hkeeps.
  pose proof (represented_date host S E props t w Hdate Hkeeps) as Hstep.
  destruct Hkeeps as (Hid' & Hdesc' & (a & Ha & Hnan & Hzero) & Hkind & _).
  unfold normalize. unfold bind at 1. rewrite Hstep.
  unfold repair_id, repair_description, repair_amount, repair_type, bind, lift.
  rewrite !Get_object, Hid, Hdesc, Hamount, Htype.
  rewrite (nonempty_truthy _ Hid'), (nonempty_truthy _ Hdesc').
  cbn [ToString]. rewrite Ha. cbn [ToBoolean]. rewrite Hnan, orb_false_r.
  assert (Hnumber : ToNumber host (if negb (is_zero a) then VNumber a else VNumber zero)
                    = Normal a).
  { destruct (is_zero a) eqn:Hz; cbn [negb].
    - rewrite (Hzero eq_refl). reflexivity.
    - reflexivity. }
  rewrite Hnumber.
  assert (Hincl : includes (Object_values E) (type t) = true).
  { unfold includes, Object_values. cbn [existsb].
    destruct Hkind as [-> | ->]; cbn [strict_equals_string];
      rewrite String.eqb_refl; [reflexivity | apply orb_true_r]. }
  rewrite Hincl. unfold ret. rewrite <- Ha.
  destruct t; reflexivity.
Qed.

Lemma represented_collection (host : Host) (S : Serializer) (E : TransactionTypeEnum)
      (elems : list value) (current : list Transaction) :
  Forall2 (represents S) elems current ->
  Forall (persistable host S E) current ->
  forall w, mapM (normalize host E) elems w = (Normal current, w).
Proof.
  induction 1 as [|v t elems current Hv _ IH]; intros Hkeep w; [reflexivity|].
  inversion Hkeep as [|? ? Ht Hrest]; subst.
  cbn [mapM]. unfold bind.
  rewrite (represented_normalizes host S E v t w Hv Ht), (IH Hrest w).
  reflexivity.
Qed.

Lemma initial_transactions_array (host : Host) (E : TransactionTypeEnum)
      (saved : string) (elems : list value) (out : list Transaction) (w w' : World) :
  saved <> "" ->
  JSON_parse host saved = Normal (VArray elems) ->
  mapM (normalize host E) elems w = (Normal out, w') ->
  initial_transactions host E (Some saved) w = (Normal out, w').
Proof.
  intros Hfull Hparse Hmap. unfold initial_transactions.
  destruct (String.eqb_spec saved ""); [contradiction|]. cbn [negb].
  unfold try_catch, bind, lift. rewrite Hparse, Hmap. unfold ret.
  rewrite filter_not_null. reflexivity.
Qed.

Lemma setItem_same (key text : string) (storage : Storage) :
  setItem key text storage key = Some text.
Proof. unfold setItem. rewrite String.eqb_refl. reflexivity. Qed.

Lemma setItem_other (key text : string) (storage : Storage) (k : string) :
  k <> key -> setItem key text storage k = storage k.
Proof.
  intros Hk. unfold setItem. destruct (String.eqb_spec k key); [contradiction | reflexivity].
Qed.



(** ** The component over a session *)

Lemma initial_transactions_returns (host : Host) (E : TransactionTypeEnum)
      (saved : option string) (w : World) :
  exists out w', initial_transactions host E saved w = (Normal out, w').
Proof.
  unfold initial_transactions.
  destruct saved as [saved|]; [|eexists _, _; reflexivity].
  destruct (negb (saved =? "")); [|eexists _, _; reflexivity].
  unfold try_catch.
  match goal with
  | |- exists _ _, (match ?body with _ => _ end) = _ =>
      destruct body as [[out|e] w1]
  end; eexists _, _; reflexivity.
Qed.

Lemma mount_returns (host : Host) (E : TransactionTypeEnum) (S : Serializer)
      (storage : Storage) (w : World) :
  exists state w',
    mount host E S storage w = (Normal state, w')
    /\ localStorage state "transactions" = Some (JSON_stringify S (transactions state))
    /\ forall k, k <> "transactions" -> localStorage state k = storage k.
Proof.
  destruct (initial_transactions_returns host E (getItem "transactions" storage) w)
    as (out & w' & Hload).
  unfold mount, bind. rewrite Hload. eexists _, _. split; [reflexivity|].
  cbn [localStorage transactions]. unfold persist. split.
  - apply setItem_same.
  - intros k Hk. apply setItem_other. exact Hk.
Qed.

Lemma dispatch_returns (host : Host) (S : Serializer) (event : Event)
      (state : AppState) (w : World) :
  exists state' w',
    dispatch host S event state w = (Normal state', w')
    /\ localStorage state' "transactions" = Some (JSON_stringify S (transactions state'))
    /\ forall k, k <> "transactions" -> localStorage state' k = localStorage state k.
Proof.
  destruct event as [newTransaction|id']; eexists _, _;
    (split; [reflexivity|]); cbn [localStorage transactions]; unfold persist;
    (split; [apply setItem_same | intros k Hk; apply setItem_other; exact Hk]).
Qed.

Lemma run_returns (host : Host) (S : Serializer) (events : list Event) :
  forall (state : AppState) (w : World),
    localStorage state "transactions" = Some (JSON_stringify S (transactions state)) ->
    exists state' w',
      run host S events state w = (Normal state', w')
      /\ localStorage state' "transactions" = Some (JSON_stringify S (transactions state'))
      /\ forall k, k <> "transactions" -> localStorage state' k = localStorage state k.
Proof.
  induction events as [|event rest IH]; intros state w Hslot.
  - exists state, w. split; [reflexivity|]. split; [exact Hslot | reflexivity].
  - destruct (dispatch_returns host S event state w) as (s1 & w1 & Hstep & Hslot1 & Hkeys1).
    destruct (IH s1 w1 Hslot1) as (s2 & w2 & Hrest & Hslot2 & Hkeys2).
    exists s2, w2. cbn [run]. unfold bind. rewrite Hstep. split; [exact Hrest|].
    split; [exact Hslot2|]. intros k Hk. rewrite (Hkeys2 k Hk). apply Hkeys1. exact Hk.
Qed.

(** Whatever the storage holds and whatever the user does, the component
    does not throw, the slot [transactions] holds the serialization of the
    collection on screen, and no other key of the storage is touched. *)
Theorem storage_follows_collection (host : Host) (E : TransactionTypeEnum)
        (S : Serializer) (storage : Storage) (events : list Event) (w : World) :
  exists state w',
    bind (mount host E S storage) (run host S events) w = (Normal state, w')
    /\ localStorage state "transactions" = Some (JSON_stringify S (transactions state))
    /\ forall k, k <> "transactions" -> localStorage state k = storage k.
Proof.
  destruct (mount_returns host E S storage w) as (s1 & w1 & Hmount & Hslot1 & Hkeys1).
  destruct (run_returns host S events s1 w1 Hslot1) as (s2 & w2 & Hrun & Hslot2 & Hkeys2).
  exists s2, w2. unfold bind. rewrite Hmount. split; [exact Hrun|].
  split; [exact Hslot2|]. intros k Hk. rewrite (Hkeys2 k Hk). apply Hkeys1. exact Hk.
Qed.

(** A payload the initializer cannot read is gone after the first render:
    the collection is empty and the effect has written the empty collection
    over the payload. *)
Theorem unreadable_payload_is_overwritten (host : Host) (E : TransactionTypeEnum)
        (S : Serializer) (storage : Storage) (saved : string) (w : World) :
  getItem "transactions" storage = Some saved ->
  saved <> "" ->
  unreadable host saved ->
  exists state w',
    mount host E S storage w = (Normal state, w')
    /\ transactions state = []
    /\ localStorage state "transactions" = Some (JSON_stringify S []).
Proof.
  intros Hslot Hfull Hbad.
  assert (Hload : exists w', initial_transactions host E (Some saved) w = (Normal [], w')).
  { unfold initial_transactions.
    destruct (String.eqb_spec saved ""); [contradiction|]. cbn [negb].
    unfold try_catch, bind at 1, lift.
    destruct Hbad as [(e & Hparse) | [(v & Hparse & Hshape) | (elems & Hparse & Hnull)]];
      rewrite Hparse.
    - eexists. reflexivity.
    - destruct v; try (eexists; reflexivity). exfalso. eapply Hshape. reflexivity.
    - destruct (mapM_normalize_null host E elems Hnull w) as (e & w1 & Hmap).
      unfold bind. rewrite Hmap. eexists. reflexivity. }
  destruct Hload as (w' & Hload).
  unfold mount, bind. rewrite Hslot, Hload. eexists _, _. split; [reflexivity|].
  split; [reflexivity|]. cbn [localStorage]. apply setItem_same.
Qed.

Lemma unreadable_payload_is_overwritten_witness :
  exists state w',
    mount Reference.host Reference.TransactionType Reference.serializer
          (storage_holding Reference.payload_with_null) Reference.start
    = (Normal state, w')
    /\ transactions state = []
    /\ localStorage state "transactions" = Some (JSON_stringify Reference.serializer []).
Proof.
  apply (unreadable_payload_is_overwritten Reference.host Reference.TransactionType
           Reference.serializer (storage_holding Reference.payload_with_null)
           Reference.payload_with_null Reference.start).
  - reflexivity.
  - vm_compute. discriminate.
  - right. right. eexists. split; [vm_compute; reflexivity|].
    right. left. reflexivity.
Defined.

(** ** Ids stay unique *)

Lemma deleteTransaction_ids (id' x : string) (current : list Transaction) :
  In x (ids (deleteTransaction id' current)) -> In x (ids current).
Proof.
  unfold ids, deleteTransaction. rewrite !in_map_iff.
  intros (t & Hx & Hin). apply filter_In in Hin as [Hin _].
  exists t. split; assumption.
Qed.

Lemma deleteTransaction_NoDup (id' : string) (current : list Transaction)
      (others : list string) :
  NoDup (ids current ++ others)%list ->
  NoDup (ids (deleteTransaction id' current) ++ others)%list.
Proof.
  induction current as [|t rest IH]; intros Hnodup; [exact Hnodup|].
  cbn in Hnodup. inversion Hnodup as [|? ? Hfresh Hrest]; subst.
  cbn [deleteTransaction filter].
  fold (deleteTransaction id' rest).
  destruct (negb (id t =? id')).
  - cbn. constructor; [|exact (IH Hrest)].
    intros Hin. apply Hfresh. apply in_app_or in Hin as [Hin|Hin]; apply in_or_app.
    + left. exact (deleteTransaction_ids id' (id t) rest Hin).
    + right. exact Hin.
  - exact (IH Hrest).
Qed.

Lemma dispatch_Add (host : Host) (S : Serializer) (newTransaction : NewTransaction)
      (state : AppState) (w : World) :
  dispatch host S (Add newTransaction) state w
  = (let next := (transactions state ++
                    [{| id := randomUUID host (draws w);
                        description := new_description newTransaction;
                        amount := new_amount newTransaction;
                        type := new_type newTransaction;
                        date := {| getTime := clock host (ticks w) |} |}])%list in
     (Normal {| transactions := next; localStorage := persist S next (localStorage state) |},
      {| ticks := Datatypes.S (ticks w); draws := Datatypes.S (draws w);
         console := console w |})).
Proof. reflexivity. Qed.

Lemma dispatch_Delete (host : Host) (S : Serializer) (id' : string)
      (state : AppState) (w : World) :
  dispatch host S (Delete id') state w
  = (let next := deleteTransaction id' (transactions state) in
     (Normal {| transactions := next; localStorage := persist S next (localStorage state) |},
      w)).
Proof. reflexivity. Qed.

(** When the ids on screen and the UUIDs the session will draw are pairwise
    distinct, the ids on screen are pairwise distinct after the session. *)
Theorem ids_stay_unique (host : Host) (S : Serializer) (events : list Event)
        (state : AppState) (w : World) :
  NoDup (ids (transactions state) ++ drawn host (draws w) events)%list ->
  exists state' w',
    run host S events state w = (Normal state', w')
    /\ NoDup (ids (transactions state'))
    /\ draws w' = draws w + additions events.
Proof.
  revert state w.
  induction events as [|event rest IH]; intros state w Hnodup.
  - exists state, w. split; [reflexivity|]. split.
    + unfold drawn in Hnodup. cbn in Hnodup. rewrite app_nil_r in Hnodup. exact Hnodup.
    + cbn. rewrite Nat.add_0_r. reflexivity.
  - destruct event as [newTransaction|id'].
    + cbn [run]. unfold bind. rewrite dispatch_Add. cbv beta iota zeta.
      match goal with
      | |- exists _ _, run _ _ _ ?s ?w1 = _ /\ _ =>
          destruct (IH s w1) as (s2 & w2 & Hrun & Hunique & Hdraws)
      end.
      * cbn [transactions draws]. unfold ids. rewrite map_app. cbn [map id].
        rewrite <- app_assoc. exact Hnodup.
      * exists s2, w2. split; [exact Hrun|]. split; [exact Hunique|].
        rewrite Hdraws. cbn [draws]. unfold additions. cbn. lia.
    + cbn [run]. unfold bind. rewrite dispatch_Delete. cbv beta iota zeta.
      match goal with
      | |- exists _ _, run _ _ _ ?s ?w1 = _ /\ _ =>
          destruct (IH s w1) as (s2 & w2 & Hrun & Hunique & Hdraws)
      end.
      * cbn [transactions]. apply deleteTransaction_NoDup. exact Hnodup.
      * exists s2, w2. split; [exact Hrun|]. split; [exact Hunique|]. exact Hdraws.
Qed.

Lemma ids_stay_unique_witness :
  exists state' w',
    run Reference.host Reference.serializer sample_session sample_state Reference.start
    = (Normal state', w')
    /\ NoDup (ids (transactions state'))
    /\ draws w' = draws Reference.start + additions sample_session.
Proof.
  apply (ids_stay_unique Reference.host Reference.serializer sample_session
           sample_state Reference.start).
  vm_compute.
  repeat (constructor; [intros Hin; cbn in Hin; intuition discriminate|]).
  constructor.
Defined.

(** ** Totals after an addition *)

Lemma aggregate_snoc (E : TransactionTypeEnum) (prev : list Transaction) (t : Transaction) :
  aggregate E (prev ++ [t])
  = let before := aggregate E prev in
    match amount t with
    | VNumber a =>
        if strict_equals_string (type t) (INCOME E)
        then {| totalIncome := totalIncome before + a;
                totalExpenses := totalExpenses before;
                balance := (totalIncome before + a) - totalExpenses before |}
        else {| totalIncome := totalIncome before;
                totalExpenses := totalExpenses before + a;
                balance := totalIncome before - (totalExpenses before + a) |}
    | _ => before
    end%float.
Proof.
  unfold aggregate. rewrite fold_left_app. cbn [fold_left].
  destruct (fold_left (accumulate E) prev (zero, zero)) as [income expenses].
  unfold accumulate. cbv zeta.
  destruct (amount t); try reflexivity.
  destruct (strict_equals_string (type t) (INCOME E)); reflexivity.
Qed.

(** The totals after [addTransaction] are the totals before it with the new
    amount added to its side, by one addition: the new transaction is the
    last one the aggregation visits. *)
Theorem addTransaction_totals (host : Host) (E : TransactionTypeEnum)
        (newTransaction : NewTransaction) (prev : list Transaction) (w : World) :
  exists next w',
    addTransaction host newTransaction prev w = (Normal next, w')
    /\ aggregate E next
       = let before := aggregate E prev in
         match new_amount newTransaction with
         | VNumber a =>
             if strict_equals_string (new_type newTransaction) (INCOME E)
             then {| totalIncome := totalIncome before + a;
                     totalExpenses := totalExpenses before;
                     balance := (totalIncome before + a) - totalExpenses before |}
             else {| totalIncome := totalIncome before;
                     totalExpenses := totalExpenses before + a;
                     balance := totalIncome before - (totalExpenses before + a) |}
         | _ => before
         end%float.
Proof.
  eexists _, _. split; [reflexivity|]. rewrite aggregate_snoc. reflexivity.
Qed.

(** ** An amount that is [NaN] *)

Lemma SFcompare_refl (x : spec_float) :
  x <> S754_nan -> SFcompare x x = Some Eq.
Proof.
  destruct x as [s|s| |s m e]; intros Hx; try (destruct s; reflexivity).
  - contradiction.
  - cbn. rewrite Z.compare_refl, Pos.compare_refl.
    destruct s; reflexivity.
Qed.

Lemma is_nan_SF (x : float) : is_nan x = true <-> Prim2SF x = S754_nan.
Proof.
  unfold is_nan. rewrite eqb_spec. unfold SFeqb. split.
  - intros H. destruct (Prim2SF x) eqn:Hx; try reflexivity;
      rewrite SFcompare_refl in H; discriminate.
  - intros ->. reflexivity.
Qed.

Lemma add_nan_r (x y : float) : is_nan y = true -> is_nan (x + y) = true.
Proof.
  rewrite !is_nan_SF, add_spec. intros ->. unfold SF64add.
  destruct (Prim2SF x); reflexivity.
Qed.

Lemma add_nan_l (x y : float) : is_nan x = true -> is_nan (x + y) = true.
Proof.
  rewrite !is_nan_SF, add_spec. intros ->. reflexivity.
Qed.

Lemma sub_nan (x y : float) :
  is_nan x = true \/ is_nan y = true -> is_nan (x - y) = true.
Proof.
  rewrite !is_nan_SF, sub_spec. unfold SF64sub. intros [-> | ->].
  - reflexivity.
  - destruct (Prim2SF x); reflexivity.
Qed.

Lemma fold_add_nan_acc (amounts : list float) :
  forall acc, is_nan acc = true -> is_nan (fold_left PrimFloat.add amounts acc) = true.
Proof.
  induction amounts as [|a rest IH]; intros acc Hacc; [exact Hacc|].
  cbn [fold_left]. apply IH. apply add_nan_l. exact Hacc.
Qed.

Lemma fold_add_nan (amounts : list float) (a : float) :
  In a amounts -> is_nan a = true ->
  forall acc, is_nan (fold_left PrimFloat.add amounts acc) = true.
Proof.
  induction amounts as [|b rest IH]; intros Hin Ha acc; [destruct Hin|].
  cbn [fold_left]. destruct Hin as [-> | Hin].
  - apply fold_add_nan_acc. apply add_nan_r. exact Ha.
  - apply IH; assumption.
Qed.

Lemma numeric_amounts_In (p : Transaction -> bool) (current : list Transaction)
      (t : Transaction) (a : float) :
  In t current -> amount t = VNumber a -> p t = true ->
  In a (numeric_amounts p current).
Proof.
  intros Hin Ha Hp. unfold numeric_amounts. apply in_flat_map.
  exists t. split; [exact Hin|]. rewrite Ha, Hp. left. reflexivity.
Qed.

(** One transaction whose amount is [NaN] makes the total of its side, and
    the balance, [NaN], whatever the other transactions are. *)
Theorem nan_amount_spoils_totals (E : TransactionTypeEnum) (current : list Transaction)
        (t : Transaction) (a : float) :
  In t current ->
  amount t = VNumber a ->
  is_nan a = true ->
  (if strict_equals_string (type t) (INCOME E)
   then is_nan (totalIncome (aggregate E current)) = true
   else is_nan (totalExpenses (aggregate E current)) = true)
  /\ is_nan (balance (aggregate E current)) = true.
Proof.
  intros Hin Ha Hnan. unfold aggregate. rewrite fold_accumulate.
  cbn [totalIncome totalExpenses balance].
  destruct (strict_equals_string (type t) (INCOME E)) eqn:Hkind.
  - assert (Hincome : is_nan (fold_left PrimFloat.add
                                (numeric_amounts (is_income E) current) zero) = true).
    { apply (fold_add_nan _ a); [|exact Hnan].
      apply (numeric_amounts_In _ current t a Hin Ha). exact Hkind. }
    split; [exact Hincome|]. apply sub_nan. left. exact Hincome.
  - assert (Hexpenses : is_nan (fold_left PrimFloat.add
                                  (numeric_amounts (fun t => negb (is_income E t)) current)
                                  zero) = true).
    { apply (fold_add_nan _ a); [|exact Hnan].
      apply (numeric_amounts_In _ current t a Hin Ha). unfold is_income.
      rewrite Hkind. reflexivity. }
    split; [exact Hexpenses|]. apply sub_nan. right. exact Hexpenses.
Qed.

Lemma nan_amount_spoils_totals_witness :
  (if strict_equals_string (type nan_income) (INCOME Reference.TransactionType)
   then is_nan (totalIncome (aggregate Reference.TransactionType
                               (income_and_expense ++ [nan_income])%list)) = true
   else is_nan (totalExpenses (aggregate Reference.TransactionType
                                 (income_and_expense ++ [nan_income])%list)) = true)
  /\ is_nan (balance (aggregate Reference.TransactionType
                        (income_and_expense ++ [nan_income])%list)) = true.
Proof.
  apply (nan_amount_spoils_totals Reference.TransactionType
           (income_and_expense ++ [nan_income])%list nan_income nan).
  - right. right. left. reflexivity.
  - reflexivity.
  - reflexivity.
Defined.

(** ** Deleting commutes *)

Lemma deleteTransaction_swap (a b : string) (current : list Transaction) :
  deleteTransaction a (deleteTransaction b current)
  = deleteTransaction b (deleteTransaction a current).
Proof.
  unfold deleteTransaction.
  induction current as [|t rest IH]; [reflexivity|].
  cbn [filter].
  destruct (negb (id t =? b)) eqn:Hb; destruct (negb (id t =? a)) eqn:Ha;
    cbn [filter]; rewrite ?Ha, ?Hb, IH; reflexivity.
Qed.

(** Two deletions give the same collection in either order, and so do a
    deletion and an addition whose UUID is not the id deleted. *)
Theorem deleteTransaction_commutes (host : Host) (newTransaction : NewTransaction)
        (a b : string) (prev : list Transaction) (w : World) :
  randomUUID host (draws w) <> a ->
  deleteTransaction a (deleteTransaction b prev)
  = deleteTransaction b (deleteTransaction a prev)
  /\ exists next w',
       addTransaction host newTransaction prev w = (Normal next, w')
       /\ addTransaction host newTransaction (deleteTransaction a prev) w
          = (Normal (deleteTransaction a next), w').
Proof.
  intros Hfresh. split; [apply deleteTransaction_swap|].
  eexists _, _. split; [reflexivity|].
  unfold addTransaction, crypto_randomUUID, new_Date_now, bind, ret.
  cbn [draws ticks]. unfold deleteTransaction at 2. rewrite filter_app.
  cbn [filter id]. destruct (String.eqb_spec (randomUUID host (draws w)) a);
    [contradiction|]. reflexivity.
Qed.

Lemma deleteTransaction_commutes_witness :
  deleteTransaction "a" (deleteTransaction "b" income_and_expense)
  = deleteTransaction "b" (deleteTransaction "a" income_and_expense)
  /\ exists next w',
       addTransaction Reference.host salary income_and_expense Reference.start
       = (Normal next, w')
       /\ addTransaction Reference.host salary
            (deleteTransaction "a" income_and_expense) Reference.start
          = (Normal (deleteTransaction "a" next), w').
Proof.
  apply (deleteTransaction_commutes Reference.host salary "a" "b"
           income_and_expense Reference.start).
  vm_compute. discriminate.
Defined.

(** ** An array of flat records *)

Lemma normalize_console (host : Host) (E : TransactionTypeEnum) (t : value)
      (w w' : World) (r : Transaction) :
  normalize host E t w = (Normal r, w') ->
  filter is_error (console w') = filter is_error (console w).
Proof.
  intros Hnorm.
  destruct (normalize_steps host E t w w' r Hnorm) as (w1 & n & Hdate & Hid & _).
  destruct (repair_date_effects host t w w1 (date r) Hdate) as [_ Hlog].
  destruct (repair_id_console host t w1 w' (id r) Hid) as [Hconsole _].
  rewrite Hconsole. destruct Hlog as [-> | (msg & -> & _)]; [reflexivity|].
  cbn [console]. rewrite filter_app. cbn [filter is_error]. apply app_nil_r.
Qed.

Lemma mapM_flat_array (host : Host) (E : TransactionTypeEnum) (elems : list value) :
  flat_array elems ->
  forall w, exists out w',
    mapM (normalize host E) elems w = (Normal out, w')
    /\ filter is_error (console w') = filter is_error (console w).
Proof.
  induction 1 as [|v rest (props & -> & Hflat) _ IH]; intros w.
  - exists [], w. split; reflexivity.
  - destruct (flat_record_normalizes host E props w Hflat) as (r & w1 & Hr).
    destruct (IH w1) as (out & w2 & Hrest & Hlog).
    exists (r :: out), w2. split.
    + cbn [mapM]. unfold bind. rewrite Hr, Hrest. reflexivity.
    + rewrite Hlog. exact (normalize_console host E _ w w1 r Hr).
Qed.

(** A payload that decodes to an array of records whose members are scalars
    is loaded whole: one transaction per record, and no error is logged. *)
Theorem flat_array_loads (host : Host) (E : TransactionTypeEnum)
        (saved : string) (elems : list value) (w : World) :
  saved <> "" ->
  JSON_parse host saved = Normal (VArray elems) ->
  flat_array elems ->
  exists out w',
    initial_transactions host E (Some saved) w = (Normal out, w')
    /\ List.length out = List.length elems
    /\ filter is_error (console w') = filter is_error (console w).
Proof.
  intros Hfull Hparse Hflat.
  destruct (mapM_flat_array host E elems Hflat w) as (out & w' & Hmap & Hlog).
  exists out, w'. split; [|split].
  - exact (initial_transactions_array host E saved elems out w w' Hfull Hparse Hmap).
  - exact (mapM_length _ elems w out w' Hmap).
  - exact Hlog.
Qed.

Lemma flat_array_loads_witness :
  exists out w',
    initial_transactions Reference.host Reference.TransactionType
      (Some Reference.payload_lowercase) Reference.start = (Normal out, w')
    /\ List.length out = 1
    /\ filter is_error (console w') = filter is_error (console Reference.start).
Proof.
  apply (flat_array_loads Reference.host Reference.TransactionType
           Reference.payload_lowercase
           [VObject [("id", VString "a"); ("amount", VString "50");
                     ("type", VString "income")]]
           Reference.start).
  - vm_compute. discriminate.
  - vm_compute. reflexivity.
  - repeat constructor. eexists. split; [reflexivity|]. repeat constructor.
Defined.

Lemma stored_date_kept_witness :
  date salary_of_new_year = {| getTime := Reference.clock 0 |}
  /\ console Reference.start = console Reference.start
  /\ ticks Reference.start = ticks Reference.start.
Proof.
  apply (stored_date_kept Reference.host Reference.TransactionType stored_salary
           (VString "2024-01-01T00:00:00.000Z") {| getTime := Reference.clock 0 |}
           Reference.start Reference.start salary_of_new_year);
    vm_compute; reflexivity.
Defined.

Lemma normalize_effects_witness :
  (draws after_anonymous_record = draws Reference.start
   \/ (draws after_anonymous_record = S (draws Reference.start)
       /\ id anonymous_expense = randomUUID Reference.host (draws Reference.start)))
  /\ ((console after_anonymous_record = console Reference.start
       /\ ticks after_anonymous_record = ticks Reference.start)
      \/ (exists msg,
             console after_anonymous_record = (console Reference.start ++ [Warn msg])%list
             /\ ticks after_anonymous_record = S (ticks Reference.start)
             /\ date anonymous_expense
                = {| getTime := clock Reference.host (ticks Reference.start) |})).
Proof.
  apply (normalize_effects Reference.host Reference.TransactionType anonymous_record
           Reference.start after_anonymous_record anonymous_expense).
  vm_compute. reflexivity.
Defined.

Lemma normalize_id_witness :
  exists stored,
    Get anonymous_record "id" = Normal stored
    /\ if ToBoolean stored
       then ToString Reference.host stored = Normal (id anonymous_expense)
            /\ draws after_anonymous_record = draws Reference.start
       else id anonymous_expense = randomUUID Reference.host (draws Reference.start)
            /\ draws after_anonymous_record = S (draws Reference.start).
Proof.
  apply (normalize_id Reference.host Reference.TransactionType anonymous_record
           Reference.start after_anonymous_record anonymous_expense).
  vm_compute. reflexivity.
Defined.

Lemma normalize_description_witness :
  exists stored,
    Get stored_salary "description" = Normal stored
    /\ if ToBoolean stored
       then ToString Reference.host stored = Normal (description salary_of_new_year)
       else description salary_of_new_year = "N/A".
Proof.
  apply (normalize_description Reference.host Reference.TransactionType stored_salary
           Reference.start Reference.start salary_of_new_year).
  vm_compute. reflexivity.
Defined.

(** ** A balance that does not round *)

Section ExactBalance.

Local Open Scope Z_scope.

Lemma SFsub_finite_exact (sa sb : bool) (a b : positive) :
  Zpos a < 2 ^ 53 -> Zpos b < 2 ^ 53 ->
  Z.abs (cond_Zopp sa (Zpos a) - cond_Zopp sb (Zpos b)) < 2 ^ 53 ->
  SF64sub (Float64.canon sa a) (Float64.canon sb b)
  = Float64.repr (cond_Zopp sa (Zpos a) - cond_Zopp sb (Zpos b)).
Proof.
  intros Ha Hb Hdiff.
  destruct (canon_value sa a Ha) as (ma & -> & Hma & _ & Hda).
  destruct (canon_value sb b Hb) as (mb & -> & Hmb & _ & Hdb).
  set (ea := Zpos (digits2_pos a) - 53) in *.
  set (eb := Zpos (digits2_pos b) - 53) in *.
  unfold SF64sub, SFsub. set (ez := Z.min ea eb).
  rewrite !shl_align_value by lia. rewrite Hma, Hmb.
  assert (Hva : Zpos a * 2 ^ (53 - Zpos (digits2_pos a)) * 2 ^ (ea - ez)
                = Zpos a * 2 ^ (- ez)).
  { rewrite <- Z.mul_assoc, <- Z.pow_add_r by lia. f_equal. f_equal. lia. }
  assert (Hvb : Zpos b * 2 ^ (53 - Zpos (digits2_pos b)) * 2 ^ (eb - ez)
                = Zpos b * 2 ^ (- ez)).
  { rewrite <- Z.mul_assoc, <- Z.pow_add_r by lia. f_equal. f_equal. lia. }
  rewrite Hva, Hvb.
  replace (cond_Zopp sa (Zpos a * 2 ^ (- ez)) - cond_Zopp sb (Zpos b * 2 ^ (- ez)))
    with ((cond_Zopp sa (Zpos a) - cond_Zopp sb (Zpos b)) * 2 ^ (- ez))
    by (destruct sa, sb; cbn [cond_Zopp]; lia).
  replace ez with (- (- ez)) at 2 by lia.
  apply binary_normalize_exact; [exact Hdiff | lia].
Qed.

Lemma SFsub_exact (a b : Z) :
  Z.abs a < 2 ^ 53 -> Z.abs b < 2 ^ 53 -> Z.abs (a - b) < 2 ^ 53 ->
  SF64sub (Float64.repr a) (Float64.repr b) = Float64.repr (a - b).
Proof.
  intros Ha Hb Hab.
  destruct a as [|a|a], b as [|b|b]; try reflexivity.
  - apply (SFsub_finite_exact false false a b); cbn [cond_Zopp]; lia.
  - apply (SFsub_finite_exact false true a b); cbn [cond_Zopp]; lia.
  - apply (SFsub_finite_exact true false a b); cbn [cond_Zopp]; lia.
  - apply (SFsub_finite_exact true true a b); cbn [cond_Zopp]; lia.
Qed.

Lemma sub_exact (a b : Z) :
  Z.abs a < 2 ^ 53 -> Z.abs b < 2 ^ 53 -> Z.abs (a - b) < 2 ^ 53 ->
  (Float64.of_Z a - Float64.of_Z b)%float = Float64.of_Z (a - b).
Proof.
  intros Ha Hb Hab. apply Prim2SF_inj.
  rewrite sub_spec, !of_Z_repr by assumption. apply SFsub_exact; assumption.
Qed.

Lemma integer_total_magnitude (amounts : list float) :
  Z.abs (integer_total amounts) <= magnitude amounts.
Proof.
  induction amounts as [|a rest IH]; cbn [integer_total magnitude fold_right]; [lia|].
  fold (integer_total rest). fold (magnitude rest). lia.
Qed.

Lemma numeric_amounts_split (p : Transaction -> bool) (l : list Transaction) :
  magnitude (numeric_amounts p l) + magnitude (numeric_amounts (fun t => negb (p t)) l)
  = magnitude (numeric_amounts (fun _ => true) l).
Proof.
  induction l as [|t rest IH]; [reflexivity|].
  cbn [numeric_amounts flat_map].
  fold (numeric_amounts p rest). fold (numeric_amounts (fun t => negb (p t)) rest).
  fold (numeric_amounts (fun _ => true) rest).
  destruct (amount t); try exact IH.
  destruct (p t); cbn [negb app]; rewrite ?magnitude_cons; lia.
Qed.

End ExactBalance.

(** When every numeric amount is an integer and their absolute values add up
    to less than [2^53], the balance is exactly the integer sum of the incomes
    less that of the other amounts. *)
Theorem safe_integer_balance_exact (E : TransactionTypeEnum) (l : list Transaction) :
  safe_integer_amounts l ->
  balance (aggregate E l)
  = Float64.of_Z (integer_total (numeric_amounts (is_income E) l)
                  - integer_total (numeric_amounts (fun t => negb (is_income E t)) l)).
Proof.
  intros Hsafe. destruct (safe_totals E l Hsafe) as [Hincome Hexpenses].
  destruct Hsafe as [_ Hmag].
  pose proof (numeric_amounts_split (is_income E) l) as Hsplit.
  pose proof (integer_total_magnitude (numeric_amounts (is_income E) l)) as Hi.
  pose proof (integer_total_magnitude
                (numeric_amounts (fun t => negb (is_income E t)) l)) as He.
  pose proof (magnitude_nonneg (numeric_amounts (is_income E) l)).
  pose proof (magnitude_nonneg (numeric_amounts (fun t => negb (is_income E t)) l)).
  assert (Hbalance : balance (aggregate E l)
                     = (totalIncome (aggregate E l) - totalExpenses (aggregate E l))%float).
  { unfold aggregate. destruct (fold_left (accumulate E) l (zero, zero)). reflexivity. }
  rewrite Hbalance, Hincome, Hexpenses. apply sub_exact; lia.
Qed.

Lemma safe_integer_balance_exact_witness :
  balance (aggregate Reference.TransactionType integer_ledger)
  = Float64.of_Z
      (integer_total (numeric_amounts (is_income Reference.TransactionType) integer_ledger)
       - integer_total (numeric_amounts
                          (fun t => negb (is_income Reference.TransactionType t))
                          integer_ledger)).
Proof.
  apply (safe_integer_balance_exact Reference.TransactionType integer_ledger).
  split.
  - repeat constructor; vm_compute; reflexivity.
  - vm_compute. reflexivity.
Defined.

(** ** What the initializer returns *)

Lemma normalize_well_formed (host : Host) (E : TransactionTypeEnum) (t : value)
      (w w' : World) (r : Transaction) :
  normalize host E t w = (Normal r, w') -> well_formed E r.
Proof.
  intros Hnorm.
  destruct (normalize_steps host E t w w' r Hnorm)
    as (w1 & n & _ & _ & _ & _ & Hamount & Htype).
  split; [exists n; exact Hamount|].
  unfold repair_type, bind, lift, ret in Htype.
  destruct (Get t "type") as [stored|e]; [|discriminate].
  destruct (includes (Object_values E) stored) eqn:Hincl.
  - inversion Htype as [Hstored]. rewrite <- Hstored in *.
    apply includes_enumerated. exact Hincl.
  - inversion Htype. right. reflexivity.
Qed.

Lemma mapM_Forall {A B} (callback : A -> M B) (P : B -> Prop) :
  (forall x w w' y, callback x w = (Normal y, w') -> P y) ->
  forall array w out w', mapM callback array w = (Normal out, w') -> Forall P out.
Proof.
  intros Hcallback. induction array as [|x rest IH]; intros w out w' Hmap.
  - inversion Hmap. constructor.
  - cbn [mapM] in Hmap.
    apply bind_Normal in Hmap as (y & w1 & Hy & Hmap).
    apply bind_Normal in Hmap as (ys & w2 & Hys & Hmap).
    inversion Hmap; subst. constructor.
    + exact (Hcallback x w w1 y Hy).
    + exact (IH w1 ys w' Hys).
Qed.

(** Whatever the storage holds, the initializer returns a collection (it
    does not throw), and every transaction of it has a number as amount and
    a member of the enum as type: the aggregation skips none of them. *)
Theorem loaded_collection_well_formed (host : Host) (E : TransactionTypeEnum)
        (saved : option string) (w : World) :
  exists out w',
    initial_transactions host E saved w = (Normal out, w')
    /\ Forall (well_formed E) out.
Proof.
  unfold initial_transactions.
  destruct saved as [saved|]; [|exists [], w; split; [reflexivity | constructor]].
  destruct (negb (saved =? "")); [|exists [], w; split; [reflexivity | constructor]].
  unfold try_catch, bind at 1, lift.
  destruct (JSON_parse host saved) as [v|e].
  - destruct v as [| | | | |elems|];
      try (eexists _, _; split; [reflexivity | constructor]).
    unfold bind.
    destruct (mapM (normalize host E) elems w) as [[out|e] w1] eqn:Hmap.
    + exists (filter not_null out), w1. split; [reflexivity|].
      rewrite filter_not_null.
      exact (mapM_Forall (normalize host E) (well_formed E)
               (fun x w0 w0' y => normalize_well_formed host E x w0 w0' y)
               elems w out w1 Hmap).
    + eexists _, _. split; [reflexivity | constructor].
  - eexists _, _. split; [reflexivity | constructor].
Qed.

(** ** An unusable date on a flat record *)

(** A record whose members are scalars and whose date is unusable is
    normalized: its date is the time the clock shows, the clock is read once,
    and the console gains one warning, which quotes the string form of the
    record's id. *)
Theorem unusable_date_replaced (host : Host) (E : TransactionTypeEnum)
        (props : list (string * value)) (w : World) :
  flat_record props ->
  date_unusable host (VObject props) ->
  exists r w' id_text msg,
    normalize host E (VObject props) w = (Normal r, w')
    /\ cbind (Get (VObject props) "id") (ToString host) = Normal id_text
    /\ mentions msg id_text
    /\ console w' = (console w ++ [Warn msg])%list
    /\ ticks w' = S (ticks w)
    /\ date r = {| getTime := clock host (ticks w) |}.
Proof.
  intros Hflat Hdate.
  destruct (flat_record_normalizes host E props w Hflat) as (r & w' & Hnorm).
  destruct (Get_flat props "id" Hflat) as (i & Hi & Hsi).
  destruct (ToString_scalar host i Hsi) as (id_text & Hid).
  assert (Htext : cbind (Get (VObject props) "id") (ToString host) = Normal id_text).
  { rewrite Hi. exact Hid. }
  destruct (repair_date_fallback host (VObject props) w id_text Hdate Htext)
    as (msg & Hmentions & Hrun).
  destruct (normalize_steps host E (VObject props) w w' r Hnorm)
    as (w1 & n & Hstep & Hid' & _).
  rewrite Hrun in Hstep. inversion Hstep as [[Hd Hw]].
  destruct (repair_id_console host (VObject props) w1 w' (id r) Hid') as [Hconsole Hticks].
  exists r, w', id_text, msg. split; [exact Hnorm|]. split; [exact Htext|].
  split; [exact Hmentions|]. rewrite Hconsole, Hticks, <- Hw. cbn [console ticks].
  split; [reflexivity|]. split; [reflexivity|]. congruence.
Qed.

Lemma unusable_date_replaced_witness :
  exists r w' id_text msg,
    normalize Reference.host Reference.TransactionType
              Reference.record_with_bad_date Reference.start = (Normal r, w')
    /\ cbind (Get Reference.record_with_bad_date "id") (ToString Reference.host)
       = Normal id_text
    /\ mentions msg id_text
    /\ console w' = (console Reference.start ++ [Warn msg])%list
    /\ ticks w' = S (ticks Reference.start)
    /\ date r = {| getTime := clock Reference.host (ticks Reference.start) |}.
Proof.
  apply (unusable_date_replaced Reference.host Reference.TransactionType
           [("id", VString "a"); ("date", VString "not-a-date")] Reference.start).
  - repeat constructor.
  - right. exists (VString "not-a-date"), {| getTime := nan |}.
    repeat split; vm_compute; reflexivity.
Defined.
